(** * pr-delta: URL resolution, diff normalisation, aggregation, path display

    A shallow embedding of [pr_delta.py].  Python [str] values are
    sequences of Unicode code points, Python [int]s are unbounded
    integers, and a raised exception is an [Err] result. *)

From Stdlib Require Import String Ascii Bool ZArith NArith Lia List.
From Stdlib Require Import DecimalString.
Import ListNotations.

Set Implicit Arguments.

Open Scope Z_scope.

(** ** Python strings *)

Definition char := N.
Definition pystr := list char.

(** An ASCII literal as a Python string. *)
Definition str (s : string) : pystr :=
  map N_of_ascii (list_ascii_of_string s).

Definition chr (s : string) : char :=
  match str s with
  | c :: _ => c
  | [] => 0%N
  end.

Fixpoint str_eqb (s t : pystr) : bool :=
  match s, t with
  | [], [] => true
  | c :: s', d :: t' => N.eqb c d && str_eqb s' t'
  | _, _ => false
  end.

(** [len(x)] *)
Definition len {A} (l : list A) : Z := Z.of_nat (length l).

(** [s.startswith(p)] *)
Fixpoint startswith (s p : pystr) {struct p} : bool :=
  match p with
  | [] => true
  | c :: p' =>
      match s with
      | [] => false
      | d :: s' => N.eqb c d && startswith s' p'
      end
  end.

(** [s.endswith(p)] *)
Definition endswith (s p : pystr) : bool :=
  startswith (rev s) (rev p).

(** [sub in s] for strings *)
Fixpoint contains (sub s : pystr) : bool :=
  startswith s sub ||
  match s with
  | [] => false
  | _ :: s' => contains sub s'
  end.

(** [s.lstrip(c)] and [s.strip(c)] for a one-character set [c] *)
Fixpoint lstrip (c : char) (s : pystr) : pystr :=
  match s with
  | [] => []
  | d :: s' => if N.eqb d c then lstrip c s' else s
  end.

Definition rstrip (c : char) (s : pystr) : pystr :=
  rev (lstrip c (rev s)).

Definition strip (c : char) (s : pystr) : pystr :=
  rstrip c (lstrip c s).

(** [s.split(sep)] for a one-character separator: never the empty list,
    the empty string gives [['']]. *)
Fixpoint split (sep : char) (s : pystr) : list pystr :=
  match s with
  | [] => [[]]
  | c :: s' =>
      if N.eqb c sep then [] :: split sep s'
      else match split sep s' with
           | w :: ws => (c :: w) :: ws
           | [] => [[c]]
           end
  end.

(** [sep.join(parts)] *)
Fixpoint join (sep : pystr) (parts : list pystr) : pystr :=
  match parts with
  | [] => []
  | p :: ps =>
      match ps with
      | [] => p
      | _ :: _ => p ++ sep ++ join sep ps
      end
  end.

(** [x in l] and [l.index(x)] for lists of strings *)
Definition mem (x : pystr) (l : list pystr) : bool :=
  existsb (str_eqb x) l.

Fixpoint index (x : pystr) (l : list pystr) : option Z :=
  match l with
  | [] => None
  | y :: l' =>
      if str_eqb y x then Some 0
      else option_map Z.succ (index x l')
  end.

(** [l[i]] with Python's negative indices; [None] is an [IndexError]. *)
Definition getitem {A} (l : list A) (i : Z) : option A :=
  let j := if i <? 0 then len l + i else i in
  if j <? 0 then None else nth_error l (Z.to_nat j).

(** Slice bounds are clamped the way Python clamps them. *)
Definition clamp {A} (l : list A) (i : Z) : nat :=
  let j := if i <? 0 then len l + i else i in
  Z.to_nat (Z.min (Z.max j 0) (len l)).

(** [l[:k]] and [l[k:]] *)
Definition slice_to {A} (l : list A) (k : Z) : list A :=
  firstn (clamp l k) l.

Definition slice_from {A} (l : list A) (k : Z) : list A :=
  skipn (clamp l k) l.

(** [s.ljust(width)] *)
Definition ljust (s : pystr) (width : Z) : pystr :=
  s ++ repeat (chr " ") (Z.to_nat (width - len s)).

(** ** Regular expressions of [EXCLUDE_PATTERNS]

    The fragment of [re] the five patterns use, compiled with
    [re.IGNORECASE]: literals, [.], concatenation, [*] and [?]. *)

Inductive regex :=
| Void
| Eps
| Lit (c : char)
| Dot
| Cat (r1 r2 : regex)
| Alt (r1 r2 : regex)
| Star (r : regex)
| Opt (r : regex).

(** The code points a lower-case pattern literal matches under
    [re.IGNORECASE]: itself, its upper-case form, and for [i], [k] and [s]
    the extra code points of the Unicode case tables. *)
Definition ignorecase_class (c : char) : list char :=
  if (N.leb (chr "a") c && N.leb c (chr "z"))%bool then
    c :: (c - 32)%N ::
      (if N.eqb c (chr "i") then [304; 305]
       else if N.eqb c (chr "k") then [8490]
       else if N.eqb c (chr "s") then [383]
       else [])%N
  else [c].

Definition lit_matches (c d : char) : bool :=
  existsb (N.eqb d) (ignorecase_class c).

Fixpoint nullable (r : regex) : bool :=
  match r with
  | Void | Lit _ | Dot => false
  | Eps | Star _ | Opt _ => true
  | Cat r1 r2 => nullable r1 && nullable r2
  | Alt r1 r2 => nullable r1 || nullable r2
  end.

(** What is left of [r] after it has read [d]. *)
Fixpoint deriv (d : char) (r : regex) : regex :=
  match r with
  | Void | Eps => Void
  | Lit c => if lit_matches c d then Eps else Void
  | Dot => if N.eqb d 10 then Void else Eps
  | Cat r1 r2 =>
      if nullable r1 then Alt (Cat (deriv d r1) r2) (deriv d r2)
      else Cat (deriv d r1) r2
  | Alt r1 r2 => Alt (deriv d r1) (deriv d r2)
  | Star r1 => Cat (deriv d r1) (Star r1)
  | Opt r1 => deriv d r1
  end.

(** [p.match(s)]: some prefix of [s] is in the language of [p]. *)
Fixpoint re_match (r : regex) (s : pystr) : bool :=
  nullable r ||
  match s with
  | [] => false
  | d :: s' => re_match (deriv d r) s'
  end.

(** [p.search(s)]: a match starting at some position of [s]. *)
Fixpoint re_search (r : regex) (s : pystr) : bool :=
  re_match r s ||
  match s with
  | [] => false
  | _ :: s' => re_search r s'
  end.

Definition lits_of (w : pystr) : regex :=
  fold_right (fun c r => Cat (Lit c) r) Eps w.

Definition lits (s : string) : regex := lits_of (str s).

Definition wrapped (r : regex) : regex :=
  Cat (Star Dot) (Cat r (Star Dot)).

Definition EXCLUDE_PATTERNS : list regex :=
  [ wrapped (Cat (lits "/test") (Cat (Opt (Lit (chr "s"))) (lits "/")));
    wrapped (lits "test");
    wrapped (lits "spec");
    wrapped (lits "_test.");
    wrapped (lits "_spec.") ].

Definition CONFIG_EXTENSIONS : list pystr :=
  map str [".yml"; ".yaml"; ".json"; ".toml"; ".xml"; ".properties";
           ".conf"; ".cfg"; ".ini"]%string.

Definition is_test_file (path : pystr) : bool :=
  existsb (fun p => re_search p path) EXCLUDE_PATTERNS.

Definition is_config_file (path : pystr) : bool :=
  existsb (endswith path) CONFIG_EXTENSIONS.

(** ** Changed files and their summary *)

Module ChangedFile.
Record t := mk
  { filename : pystr; additions : Z; deletions : Z; changes : Z }.
End ChangedFile.

Module FileChange.
Record t := mk
  { path : pystr; additions : Z; deletions : Z; changes : Z;
    net_change : Z; is_config : bool }.
End FileChange.

Definition summary : Type := Z * Z * Z * list FileChange.t.

(** The body of the loop of [summarize_files]. *)
Definition summarize_step (include_tests : bool) (acc : summary)
  (file : ChangedFile.t) : summary :=
  let '(total_added, total_deleted, total_changes, file_changes) := acc in
  let path := ChangedFile.filename file in
  if negb include_tests && is_test_file path then acc
  else
    let additions := ChangedFile.additions file in
    let deletions := ChangedFile.deletions file in
    let changes := ChangedFile.changes file in
    let net_change := additions - deletions in
    let is_config := is_config_file path in
    (total_added + additions,
     total_deleted + deletions,
     total_changes + changes,
     file_changes ++
       [FileChange.mk path additions deletions changes net_change is_config]).

Definition summarize_files (files : list ChangedFile.t)
  (include_tests : bool) : summary :=
  fold_left (summarize_step include_tests) files (0, 0, 0, []).

Definition total_added (s : summary) : Z := fst (fst (fst s)).
Definition total_deleted (s : summary) : Z := snd (fst (fst s)).
Definition total_changes (s : summary) : Z := snd (fst s).
Definition file_changes (s : summary) : list FileChange.t := snd s.

(** ** Exceptions *)

Inductive exn :=
| ValueError (msg : string)
| RuntimeError (status_code : Z) (text : pystr)
| IndexError.

Inductive result (A : Type) :=
| Ok (a : A)
| Err (e : exn).

Arguments Ok {A} a.
Arguments Err {A} e.

Definition bind {A B} (m : result A) (k : A -> result B) : result B :=
  match m with
  | Ok a => k a
  | Err e => Err e
  end.

Notation "x <- m ;; k" := (bind m (fun x => k))
  (at level 61, m at next level, right associativity).

(** [l[i]], raising [IndexError] out of range. *)
Definition item {A} (l : list A) (i : Z) : result A :=
  match getitem l i with
  | Some x => Ok x
  | None => Err IndexError
  end.

(** ** URL resolver *)

Inductive platform := github | gitlab.

Module ParseResult.
Record t := mk { netloc : pystr; path : pystr }.
End ParseResult.

Definition pr_info : Type := platform * pystr * pystr * pystr.

Definition invalid_github : exn := ValueError "Invalid GitHub PR URL".
Definition invalid_gitlab : exn := ValueError "Invalid GitLab MR URL".
Definition unsupported_url : exn :=
  ValueError "Unsupported URL: Only GitHub and GitLab are supported.".

Section Resolver.

(** [urllib.parse.urlparse] and [str.lower] belong to Python's library;
    the resolver is embedded over whatever they compute. *)
Variable urlparse : pystr -> ParseResult.t.
Variable lower : pystr -> pystr.

(** [parsed.path.strip('/').split('/')] *)
Definition path_parts_of (parsed : ParseResult.t) : list pystr :=
  split (chr "/") (strip (chr "/") (ParseResult.path parsed)).

Definition extract_pr_info (pr_url : pystr) : result pr_info :=
  let parsed := urlparse pr_url in
  let host := lower (ParseResult.netloc parsed) in
  let path_parts := path_parts_of parsed in
  if contains (str "github.com") host then
    if len path_parts <? 4 then Err invalid_github
    else
      seg <- item path_parts (-2) ;;
      if negb (str_eqb seg (str "pull")) then Err invalid_github
      else
        match slice_to path_parts 4 with
        | [owner; repo; _; pr_number] => Ok (github, owner, repo, pr_number)
        | _ => Err (ValueError "unpack")
        end
  else if contains (str "gitlab.com") host then
    if negb (mem (str "merge_requests") path_parts) then Err invalid_gitlab
    else
      match index (str "merge_requests") path_parts with
      | None => Err (ValueError "not in list")
      | Some mr_idx =>
          if (mr_idx <? 2) || (mr_idx + 1 >=? len path_parts)
          then Err invalid_gitlab
          else
            repo <- item path_parts (mr_idx - 2) ;;
            owner <- (if mr_idx - 3 >=? 0 then item path_parts (mr_idx - 3)
                      else Ok []) ;;
            mr_number <- item path_parts (mr_idx + 1) ;;
            let owner :=
              if mr_idx - 3 >? 0
              then join (str "/") (slice_to path_parts (mr_idx - 2))
              else owner in
            Ok (gitlab, owner, repo, mr_number)
      end
  else Err unsupported_url.

(** The host and the path segments [extract_pr_info] works on. *)
Definition host_of (pr_url : pystr) : pystr :=
  lower (ParseResult.netloc (urlparse pr_url)).

Definition parts_of (pr_url : pystr) : list pystr :=
  path_parts_of (urlparse pr_url).

End Resolver.

(** ASCII lower-casing: what [str.lower] does to ASCII text. *)
Definition lower_ascii (s : pystr) : pystr :=
  map (fun c => if (N.leb (chr "A") c && N.leb c (chr "Z"))%bool
                then (c + 32)%N else c) s.

(** A parser that has split a URL into the given location and path. *)
Definition parsed_as (netloc path : string) : pystr -> ParseResult.t :=
  fun _ => ParseResult.mk (str netloc) (str path).

(** The invariant the data model states for a resolved reference. *)
Definition is_digit (c : char) : bool :=
  (N.leb (chr "0") c && N.leb c (chr "9"))%bool.

Definition ref_invariant (r : pr_info) : bool :=
  let '(_, owner, repo, number) := r in
  negb (str_eqb owner []) && negb (str_eqb repo []) && forallb is_digit number.

(** ** GitLab normalisation *)

Module GitLabChange.
Record t := mk { new_path : pystr; diff : option pystr }.
End GitLabChange.

Module Response.
Record t := mk
  { status_code : Z; text : pystr; changes : option (list GitLabChange.t) }.
End Response.

(** The line boundaries of [str.splitlines]. *)
Definition is_linebreak (c : char) : bool :=
  existsb (N.eqb c) [10; 11; 12; 13; 28; 29; 30; 133; 8232; 8233]%N.

(** [s.splitlines()], with [cur] the reversed line read so far. *)
Fixpoint splitlines_from (cur s : pystr) : list pystr :=
  match s with
  | [] =>
      match cur with
      | [] => []
      | _ :: _ => [rev cur]
      end
  | c :: s' =>
      if is_linebreak c then
        rev cur ::
          match s' with
          | d :: s'' =>
              if (N.eqb c 13 && N.eqb d 10)%bool then splitlines_from [] s''
              else splitlines_from [] s'
          | [] => []
          end
      else splitlines_from (c :: cur) s'
  end.

Definition splitlines (s : pystr) : list pystr := splitlines_from [] s.

(** The body of the inner loop of [fetch_mr_files_gitlab]. *)
Definition count_step (acc : Z * Z) (line : pystr) : Z * Z :=
  let '(added, deleted) := acc in
  if startswith line (str "+") && negb (startswith line (str "+++"))
  then (added + 1, deleted)
  else if startswith line (str "-") && negb (startswith line (str "---"))
  then (added, deleted + 1)
  else acc.

Definition count_diff (diff : pystr) : Z * Z :=
  fold_left count_step (splitlines diff) (0, 0).

(** One round of the outer loop: [f.get('diff', '')] is scanned and the
    record of the file is built. *)
Definition normalize_change (f : GitLabChange.t) : ChangedFile.t :=
  let diff := match GitLabChange.diff f with Some d => d | None => [] end in
  let '(added, deleted) := count_diff diff in
  ChangedFile.mk (GitLabChange.new_path f) added deleted (added + deleted).

(** [fetch_mr_files_gitlab], from the response of the request on. *)
Definition fetch_mr_files_gitlab (response : Response.t)
  : result (list ChangedFile.t) :=
  if negb (Response.status_code response =? 200)
  then Err (RuntimeError (Response.status_code response) (Response.text response))
  else
    let files :=
      match Response.changes response with Some l => l | None => [] end in
    Ok (fold_left (fun file_list f => file_list ++ [normalize_change f])
          files []).

(** ** Presenter *)

Definition truncate_middle (path : pystr) (max_length : Z) : pystr :=
  if len path <=? max_length then ljust path max_length
  else
    let part_len := (max_length - 3) / 2 in
    ljust (slice_to path part_len ++ str "..." ++ slice_from path (- part_len))
      max_length.

Definition default_max_length : Z := 60.

(** The first column of a row of the table of [main]: the format
    specifications [:60] and [:<60] left-justify a string to width 60. *)
Definition path_field (truncate_paths : bool) (path : pystr) : pystr :=
  if truncate_paths
  then ljust (truncate_middle path default_max_length) 60
  else ljust (slice_from path (-60)) 60.

(** ** Specification-side notions *)

(** Whether the loop of [summarize_files] keeps a file. *)
Definition kept (include_tests : bool) (file : ChangedFile.t) : bool :=
  negb (negb include_tests && is_test_file (ChangedFile.filename file)).

(** The record the loop appends for a kept file. *)
Definition classify (file : ChangedFile.t) : FileChange.t :=
  FileChange.mk (ChangedFile.filename file)
    (ChangedFile.additions file) (ChangedFile.deletions file)
    (ChangedFile.changes file)
    (ChangedFile.additions file - ChangedFile.deletions file)
    (is_config_file (ChangedFile.filename file)).

Definition sum_of {A} (f : A -> Z) (l : list A) : Z :=
  fold_right (fun x acc => f x + acc) 0 l.

(** The invariant of a changed file in the data model. *)
Definition consistent (file : ChangedFile.t) : Prop :=
  ChangedFile.changes file
  = ChangedFile.additions file + ChangedFile.deletions file.

(** [l1] is [l2] with some elements left out, the order kept. *)
Inductive subseq {A} : list A -> list A -> Prop :=
| subseq_nil : subseq [] []
| subseq_skip x l1 l2 : subseq l1 l2 -> subseq l1 (x :: l2)
| subseq_keep x l1 l2 : subseq l1 l2 -> subseq (x :: l1) (x :: l2).

(** A line that counts as an addition, and one that counts as a deletion. *)
Definition is_addition (line : pystr) : bool :=
  startswith line (str "+") && negb (startswith line (str "+++")).

Definition is_deletion (line : pystr) : bool :=
  startswith line (str "-") && negb (startswith line (str "---")).

Definition count {A} (f : A -> bool) (l : list A) : Z :=
  len (filter f l).

(** A segment: a string without the separator. *)
Definition free_of (sep : char) (s : pystr) : Prop := ~ In sep s.

(** The strings a regular expression matches in full. *)
Inductive lang : regex -> pystr -> Prop :=
| lang_eps : lang Eps []
| lang_lit c d : lit_matches c d = true -> lang (Lit c) [d]
| lang_dot d : N.eqb d 10 = false -> lang Dot [d]
| lang_cat r1 r2 s1 s2 :
    lang r1 s1 -> lang r2 s2 -> lang (Cat r1 r2) (s1 ++ s2)
| lang_alt_l r1 r2 s : lang r1 s -> lang (Alt r1 r2) s
| lang_alt_r r1 r2 s : lang r2 s -> lang (Alt r1 r2) s
| lang_star_nil r : lang (Star r) []
| lang_star_cons r s1 s2 :
    lang r s1 -> lang (Star r) s2 -> lang (Star r) (s1 ++ s2)
| lang_opt_none r : lang (Opt r) []
| lang_opt_some r s : lang r s -> lang (Opt r) s.

(** [m] is the word [w] up to the case of its letters. *)
Definition spells (w m : pystr) : Prop :=
  Forall2 (fun c d => lit_matches c d = true) w m.

(** [w] occurs in [s], in any case. *)
Definition occurs (w s : pystr) : Prop :=
  exists a m b, s = a ++ m ++ b /\ spells w m.

(** The two files of the concrete scenario of the aggregator. *)
Definition scenario_files : list ChangedFile.t :=
  [ ChangedFile.mk (str "src/main.go") 10 2 12;
    ChangedFile.mk (str "test/main_test.go") 5 1 6 ].

(** The diff text of the concrete scenario of the normalisation. *)
Definition newline : pystr := [10%N].

Definition scenario_diff : pystr :=
  str "+++ b/f" ++ newline ++ str "+foo" ++ newline ++ str "--- a/f"
  ++ newline ++ str "-bar" ++ newline ++ str "+baz".

(** A path of more than 60 characters. *)
Definition long_path : pystr :=
  str "services/billing/internal/handlers/v2/adapters/stripe_webhook.go".

(** The resolver in closed form: what [extract_pr_info] returns for a
    lowercased host and a list of path segments. *)
Definition second_to_last_is (seg : pystr) (parts : list pystr) : bool :=
  match getitem parts (-2) with
  | Some x => str_eqb x seg
  | None => false
  end.

Definition resolution_of (host : pystr) (parts : list pystr)
  : result pr_info :=
  if contains (str "github.com") host then
    if (len parts <? 4) || negb (second_to_last_is (str "pull") parts)
    then Err invalid_github
    else Ok (github, nth 0 parts [], nth 1 parts [], nth 3 parts [])
  else if contains (str "gitlab.com") host then
    match index (str "merge_requests") parts with
    | None => Err invalid_gitlab
    | Some i =>
        if (i <? 2) || (len parts <=? i + 1) then Err invalid_gitlab
        else Ok (gitlab,
                 join (str "/") (firstn (Z.to_nat i - 2) parts),
                 nth (Z.to_nat i - 2) parts [],
                 nth (Z.to_nat i + 1) parts [])
    end
  else Err unsupported_url.

(** A parser that has split each URL of a table into its location and
    path, and any other URL into empty components. *)
Fixpoint parsed_by (table : list (string * (string * string)))
  (url : pystr) : ParseResult.t :=
  match table with
  | [] => ParseResult.mk [] []
  | (u, (netloc, path)) :: rest =>
      if str_eqb (str u) url then ParseResult.mk (str netloc) (str path)
      else parsed_by rest url
  end.

(** A string without any of the line boundaries of [str.splitlines]. *)
Definition one_line (s : pystr) : Prop :=
  Forall (fun c => is_linebreak c = false) s.

(** What a normalised file must satisfy. *)
Definition well_formed (file : ChangedFile.t) : Prop :=
  consistent file
  /\ 0 <= ChangedFile.additions file /\ 0 <= ChangedFile.deletions file.

(** Two summaries put together: totals added, lists appended. *)
Definition combine (s1 s2 : summary) : summary :=
  (total_added s1 + total_added s2,
   total_deleted s1 + total_deleted s2,
   total_changes s1 + total_changes s2,
   file_changes s1 ++ file_changes s2).

(** A successful response of the GitLab endpoint, with two changes. *)
Definition gitlab_response : Response.t :=
  Response.mk 200 (str "ok")
    (Some [GitLabChange.mk (str "src/main.go") (Some scenario_diff);
           GitLabChange.mk (str "README.md") None]).

(** ** GitHub pagination *)

Module GitHubResponse.
Record t := mk { status_code : Z; text : pystr; json : list ChangedFile.t }.
End GitHubResponse.

Definition headers : Type := list (pystr * pystr).

Section Pagination.

(** [requests.get(url, headers=headers, params={'page': page,
    'per_page': per_page})] *)
Variable requests_get : pystr -> headers -> Z -> Z -> GitHubResponse.t.

(** The [while True] loop of [fetch_pr_files], from page [page] on with
    [all_files] gathered so far; [None] when [fuel] rounds were not
    enough. *)
Fixpoint fetch_pr_files_loop (url : pystr) (hdrs : headers) (fuel : nat)
  (page : Z) (all_files : list ChangedFile.t)
  : option (result (list ChangedFile.t)) :=
  match fuel with
  | O => None
  | S fuel' =>
      let response := requests_get url hdrs page 100 in
      if negb (GitHubResponse.status_code response =? 200)
      then Some (Err (RuntimeError (GitHubResponse.status_code response)
                        (GitHubResponse.text response)))
      else
        let files := GitHubResponse.json response in
        match files with
        | [] => Some (Ok all_files)
        | _ :: _ =>
            fetch_pr_files_loop url hdrs fuel' (page + 1) (all_files ++ files)
        end
  end.

Definition github_files_url (owner repo pr_number : pystr) : pystr :=
  str "https://api.github.com/repos/" ++ owner ++ str "/" ++ repo
  ++ str "/pulls/" ++ pr_number ++ str "/files".

Definition github_headers (token : pystr) : headers :=
  [ (str "Authorization", str "Bearer " ++ token);
    (str "Accept", str "application/vnd.github.v3+json") ].

Definition fetch_pr_files (fuel : nat) (owner repo pr_number token : pystr)
  : option (result (list ChangedFile.t)) :=
  fetch_pr_files_loop (github_files_url owner repo pr_number)
    (github_headers token) fuel 1 [].

End Pagination.

(** The pages of one listing: the responses to the requests the loop
    makes for a URL and headers. *)
Definition listing (requests_get : pystr -> headers -> Z -> Z -> GitHubResponse.t)
  (url : pystr) (hdrs : headers) (page : Z) : GitHubResponse.t :=
  requests_get url hdrs page 100.

(** The files of the pages [page], ..., [page + k - 1] of a listing. *)
Definition pages_from (get : Z -> GitHubResponse.t) (page : Z) (k : nat)
  : list ChangedFile.t :=
  concat (map (fun i => GitHubResponse.json (get (page + Z.of_nat i)))
            (seq 0 k)).

(** A page that lets the loop go on. *)
Definition full_page (response : GitHubResponse.t) : Prop :=
  GitHubResponse.status_code response = 200
  /\ GitHubResponse.json response <> [].

(** A listing of two pages of files and a listing that breaks on its
    second page. *)
Definition two_pages (url : pystr) (hdrs : headers) (page per_page : Z)
  : GitHubResponse.t :=
  if page =? 1 then GitHubResponse.mk 200 [] scenario_files
  else if page =? 2
       then GitHubResponse.mk 200 [] [ChangedFile.mk (str "README.md") 3 0 3]
       else GitHubResponse.mk 200 [] [].

Definition broken_listing (url : pystr) (hdrs : headers) (page per_page : Z)
  : GitHubResponse.t :=
  if page =? 1 then GitHubResponse.mk 200 [] scenario_files
  else GitHubResponse.mk 502 (str "Bad Gateway") [].

Definition endless_listing (url : pystr) (hdrs : headers) (page per_page : Z)
  : GitHubResponse.t :=
  GitHubResponse.mk 200 [] scenario_files.

(** ** The command line *)

(** [str(n)] for an [int]. *)
Definition repr (n : Z) : pystr := str (NilZero.string_of_int (Z.to_int n)).

(** [s.rjust(width)]: what the format specifications [:6] on an [int] and
    [:>8] on a string do. *)
Definition rjust (s : pystr) (width : Z) : pystr :=
  repeat (chr " ") (Z.to_nat (width - len s)) ++ s.

Module Args.
Record t := mk
  { pr_url : pystr; token : option pystr; include_tests : bool;
    show_files : bool; truncate_paths : bool }.
End Args.

(** Truth of an optional string: [None] and [''] are false. *)
Definition truthy (s : option pystr) : bool :=
  match s with
  | Some (_ :: _) => true
  | _ => false
  end.

(** [a or b] *)
Definition py_or (a b : option pystr) : option pystr :=
  if truthy a then a else b.

Definition text_of (s : option pystr) : pystr :=
  match s with
  | Some t => t
  | None => []
  end.

(** [str(e)] for the exceptions [main] can catch; [api] names the
    fetcher a [RuntimeError] comes from. *)
Definition message_of (api : string) (e : exn) : pystr :=
  match e with
  | ValueError msg => str msg
  | RuntimeError status_code text =>
      str api ++ str " API error: " ++ repr status_code ++ str " " ++ text
  | IndexError => str "list index out of range"
  end.

Definition error_line (api : string) (e : exn) : pystr :=
  str "Error: " ++ message_of api e.

Definition github_token_required : pystr :=
  str "GitHub token is required. Pass via --token or set GITHUB_TOKEN.".

Definition gitlab_token_required : pystr :=
  str "GitLab token is required. Pass via --token or set GITLAB_TOKEN.".

Definition table_header : pystr :=
  ljust (str "File") 60 ++ str " " ++ rjust (str "+Add") 6 ++ str " "
  ++ rjust (str "-Del") 6 ++ str " " ++ rjust (916%N :: str "Change") 8
  ++ str " " ++ rjust (177%N :: str "Net") 6 ++ str " "
  ++ rjust (str "Config?") 8.

Definition table_rule : pystr := repeat (chr "-") 100.

(** One row of the table, for either value of [--truncate-paths]. *)
Definition table_row (truncate_paths : bool) (f : FileChange.t) : pystr :=
  path_field truncate_paths (FileChange.path f) ++ str " "
  ++ rjust (repr (FileChange.additions f)) 6 ++ str " "
  ++ rjust (repr (FileChange.deletions f)) 6 ++ str " "
  ++ rjust (repr (FileChange.changes f)) 8 ++ str " "
  ++ rjust (repr (FileChange.net_change f)) 6 ++ str " "
  ++ rjust (if FileChange.is_config f then str "Yes" else str "No") 8.

(** What [main] prints once the files are fetched, one string per call
    of [print]. *)
Definition report (args : Args.t) (files : list ChangedFile.t)
  : list pystr :=
  let '(added, deleted, changed, file_changes) :=
    summarize_files files (Args.include_tests args) in
  [ newline ++ str "Code Delta Summary"
    ++ (if Args.include_tests args then str " (including test files)"
        else str " (excluding test files)") ++ str ":";
    str "Lines added:     " ++ repr added;
    str "Lines deleted:   " ++ repr deleted;
    str "Total changes:   " ++ repr changed ]
  ++ (if Args.show_files args then
        [ newline ++ str "File Changes ("
          ++ (if Args.include_tests args then str "all files"
              else str "non-test files") ++ str "):";
          table_header;
          table_rule ]
        ++ map (table_row (Args.truncate_paths args)) file_changes
      else []).

Section Main.

Variable urlparse : pystr -> ParseResult.t.
Variable lower : pystr -> pystr.
(** [os.getenv] *)
Variable getenv : pystr -> option pystr.
(** [urllib.parse.quote(s, safe='')] *)
Variable quote : pystr -> pystr.
Variable requests_get : pystr -> headers -> Z -> Z -> GitHubResponse.t.
(** [requests.get(url, headers=headers)] on the GitLab endpoint *)
Variable gitlab_get : pystr -> headers -> Response.t.

Definition gitlab_changes_url (owner repo mr_number : pystr) : pystr :=
  let project_path := quote (owner ++ str "/" ++ repo) in
  str "https://gitlab.com/api/v4/projects/" ++ project_path
  ++ str "/merge_requests/" ++ mr_number ++ str "/changes".

Definition gitlab_headers (token : pystr) : headers :=
  [ (str "PRIVATE-TOKEN", token); (str "Accept", str "application/json") ].

(** [main], on parsed arguments; the strings printed, in order, or [None]
    when the pagination was cut short by [fuel]. *)
Definition main (fuel : nat) (args : Args.t) : option (list pystr) :=
  let github_token :=
    py_or (Args.token args) (getenv (str "GITHUB_TOKEN")) in
  let gitlab_token :=
    py_or (Args.token args) (getenv (str "GITLAB_TOKEN")) in
  match extract_pr_info urlparse lower (Args.pr_url args) with
  | Err e => Some [error_line "" e]
  | Ok (platform, owner, repo, pr_number) =>
      match platform with
      | github =>
          if negb (truthy github_token) then Some [github_token_required]
          else
            match fetch_pr_files requests_get fuel owner repo pr_number
                    (text_of github_token) with
            | None => None
            | Some (Err e) => Some [error_line "GitHub" e]
            | Some (Ok files) => Some (report args files)
            end
      | gitlab =>
          if negb (truthy gitlab_token) then Some [gitlab_token_required]
          else
            match fetch_mr_files_gitlab
                    (gitlab_get (gitlab_changes_url owner repo pr_number)
                       (gitlab_headers (text_of gitlab_token))) with
            | Err e => Some [error_line "GitLab" e]
            | Ok files => Some (report args files)
            end
      end
  end.

End Main.

(** The environment variable and the message of each platform. *)
Definition token_variable (p : platform) : pystr :=
  match p with
  | github => str "GITHUB_TOKEN"
  | gitlab => str "GITLAB_TOKEN"
  end.

Definition token_required (p : platform) : pystr :=
  match p with
  | github => github_token_required
  | gitlab => gitlab_token_required
  end.


(** An environment with both tokens, one with none, and a GitLab server
    that refuses. *)
Definition env_with_tokens (name : pystr) : option pystr :=
  if str_eqb name (str "GITHUB_TOKEN") then Some (str "gh-env")
  else if str_eqb name (str "GITLAB_TOKEN") then Some (str "gl-env")
  else None.

Definition env_without_tokens (name : pystr) : option pystr := None.

Definition gitlab_refuses (url : pystr) (hdrs : headers) : Response.t :=
  Response.mk 401 (str "Unauthorized") None.

Definition gitlab_answers (url : pystr) (hdrs : headers) : Response.t :=
  gitlab_response.

Definition quote_plain (s : pystr) : pystr := s.

(** Command lines for the checks of [main]. *)
Definition args_of (url : string) (token : option pystr) : Args.t :=
  Args.mk (str url) token false true false.

(** * Checks on concrete inputs *)

Example is_test_file_examples :
  map (fun s => is_test_file (str s))
    ["src/main.go"; "test/main_test.go"; "contestant.py"; "inspector.go";
     "a/Tests/b"; "README.md"]%string
  = [false; true; true; true; true; false].
Proof. vm_compute. reflexivity. Qed.

Example is_config_file_examples :
  map (fun s => is_config_file (str s))
    ["a/b/config.yaml"; "a/b/config.yamlx"; "x.JSON"]%string
  = [true; false; false].
Proof. vm_compute. reflexivity. Qed.

(** * The matcher *)

Lemma nullable_lang r : nullable r = true <-> lang r [].
Proof.
  split.
  - induction r as [| | | |r1 IH1 r2 IH2|r1 IH1 r2 IH2|r IH|r IH]; simpl;
      intros Hn; try discriminate.
    + apply lang_eps.
    + apply andb_true_iff in Hn. destruct Hn as [H1 H2].
      change (@nil char) with (@nil char ++ []). apply lang_cat; auto.
    + apply orb_true_iff in Hn. destruct Hn as [H1|H2].
      * apply lang_alt_l. auto.
      * apply lang_alt_r. auto.
    + apply lang_star_nil.
    + apply lang_opt_none.
  - intros Hl. remember (@nil char) as t eqn:Ht.
    induction Hl; simpl; try discriminate; try reflexivity.
    + apply app_eq_nil in Ht. destruct Ht as [-> ->].
      rewrite IHHl1, IHHl2; reflexivity.
    + rewrite IHHl by assumption. reflexivity.
    + rewrite IHHl by assumption. apply orb_true_r.
Qed.

Lemma deriv_sound d r : forall s, lang (deriv d r) s -> lang r (d :: s).
Proof.
  induction r; simpl; intros s Hl.
  - inversion Hl.
  - inversion Hl.
  - destruct (lit_matches c d) eqn:Hc; inversion Hl; subst.
    constructor. exact Hc.
  - destruct (N.eqb d 10) eqn:Hd; inversion Hl; subst.
    constructor. exact Hd.
  - destruct (nullable r1) eqn:Hn.
    + inversion Hl as [| | | |? ? ? Hleft|? ? ? Hright| | | |]; subst.
      * inversion Hleft; subst.
        change (d :: s1 ++ s2) with ((d :: s1) ++ s2). constructor; auto.
      * change (d :: s) with ([] ++ d :: s). constructor; auto.
        apply nullable_lang, Hn.
    + inversion Hl; subst.
      change (d :: s1 ++ s2) with ((d :: s1) ++ s2). constructor; auto.
  - inversion Hl; subst; [apply lang_alt_l|apply lang_alt_r]; auto.
  - inversion Hl; subst.
    change (d :: s1 ++ s2) with ((d :: s1) ++ s2). constructor; auto.
  - apply lang_opt_some. auto.
Qed.

Lemma deriv_complete d r t :
  lang r t -> forall s, t = d :: s -> lang (deriv d r) s.
Proof.
  induction 1 as [|c d' Hc|d' Hd|r1 r2 s1 s2 H1 IH1 H2 IH2|r1 r2 t H1 IH1
                 |r1 r2 t H2 IH2|r|r s1 s2 H1 IH1 H2 IH2|r|r t H1 IH1];
    intros s Ht; simpl; try discriminate.
  - injection Ht as -> <-. rewrite Hc. constructor.
  - injection Ht as -> <-. rewrite Hd. constructor.
  - destruct s1 as [|d1 s1]; simpl in Ht.
    + apply nullable_lang in H1. rewrite H1. apply lang_alt_r. auto.
    + injection Ht as -> <-.
      destruct (nullable r1); [apply lang_alt_l|]; constructor; auto.
  - apply lang_alt_l. auto.
  - apply lang_alt_r. auto.
  - destruct s1 as [|d1 s1]; simpl in Ht.
    + apply (IH2 s Ht).
    + injection Ht as -> <-. constructor; auto.
  - auto.
Qed.

(** [re_match] finds a prefix in the language, [re_search] a substring. *)
Lemma re_match_lang (s : pystr) : forall r,
  re_match r s = true <-> exists p q, s = p ++ q /\ lang r p.
Proof.
  induction s as [|d s IH]; intros r; simpl.
  - rewrite orb_false_r, nullable_lang. split.
    + intros Hl. exists [], []. auto.
    + intros (p & q & Heq & Hl). symmetry in Heq.
      apply app_eq_nil in Heq. destruct Heq as [-> _]. exact Hl.
  - rewrite orb_true_iff, nullable_lang, IH. split.
    + intros [Hl|(p & q & -> & Hl)].
      * exists [], (d :: s). auto.
      * exists (d :: p), q. split; [reflexivity|apply deriv_sound, Hl].
    + intros (p & q & Heq & Hl). destruct p as [|d' p]; [left; exact Hl|].
      injection Heq as <- ->. right. exists p, q.
      split; [reflexivity|]. eapply deriv_complete; [exact Hl|reflexivity].
Qed.

Lemma re_search_lang (s : pystr) : forall r,
  re_search r s = true <-> exists a p q, s = a ++ p ++ q /\ lang r p.
Proof.
  induction s as [|d s IH]; intros r; cbn [re_search].
  - rewrite orb_false_r, re_match_lang. split.
    + intros (p & q & Heq & Hl). exists [], p, q. auto.
    + intros (a & p & q & Heq & Hl). symmetry in Heq.
      apply app_eq_nil in Heq. destruct Heq as [-> Heq].
      exists p, q. auto.
  - rewrite orb_true_iff, re_match_lang, IH. split.
    + intros [(p & q & Heq & Hl)|(a & p & q & -> & Hl)].
      * exists [], p, q. auto.
      * exists (d :: a), p, q. auto.
    + intros (a & p & q & Heq & Hl). destruct a as [|d' a].
      * left. exists p, q. auto.
      * injection Heq as <- ->. right. exists a, p, q. auto.
Qed.

Lemma lang_lits (w : pystr) : forall m, lang (lits_of w) m <-> spells w m.
Proof.
  unfold spells. induction w as [|c w IH]; intros m; simpl; split.
  - intros Hl. inversion Hl. constructor.
  - intros Hs. inversion Hs. constructor.
  - intros Hl. inversion Hl as [| | |? ? s1 s2 H1 H2| | | | | |]; subst.
    inversion H1; subst. constructor; [assumption|]. apply IH, H2.
  - intros Hs. inversion Hs as [|? d ? m' Hc Hrest]; subst.
    change (d :: m') with ([d] ++ m'). constructor;
      [constructor; exact Hc|apply IH, Hrest].
Qed.

(** A pattern [.*r.*] is found exactly where [r] is. *)
Lemma re_search_wrapped r (s : pystr) :
  re_search (wrapped r) s = true <-> exists a m b, s = a ++ m ++ b /\ lang r m.
Proof.
  rewrite re_search_lang. unfold wrapped. split.
  - intros (a & p & q & -> & Hl).
    inversion Hl as [| | |? ? x rest Hx Hrest| | | | | |]; subst.
    inversion Hrest as [| | |? ? m y Hm Hy| | | | | |]; subst.
    exists (a ++ x), m, (y ++ q). split; [|exact Hm].
    rewrite <- !app_assoc. reflexivity.
  - intros (a & m & b & -> & Hm). exists a, m, b. split; [reflexivity|].
    change m with ([] ++ m). constructor; [constructor|].
    rewrite <- (app_nil_r m). constructor; [exact Hm|constructor].
Qed.

Lemma spells_app_inv (w1 w2 m : pystr) :
  spells (w1 ++ w2) m ->
  exists m1 m2, m = m1 ++ m2 /\ spells w1 m1 /\ spells w2 m2.
Proof.
  unfold spells. intros Hs. apply Forall2_app_inv_l in Hs.
  destruct Hs as (m1 & m2 & H1 & H2 & ->). exists m1, m2. auto.
Qed.

(** A longer word holds the occurrences of its parts. *)
Lemma occurs_inside (pre w post s : pystr) :
  occurs (pre ++ w ++ post) s -> occurs w s.
Proof.
  intros (a & m & b & -> & Hs).
  apply spells_app_inv in Hs. destruct Hs as (m1 & m' & -> & _ & Hs).
  apply spells_app_inv in Hs. destruct Hs as (m2 & m3 & -> & Hs & _).
  exists (a ++ m1), m2, (m3 ++ b). split; [|exact Hs].
  rewrite <- !app_assoc. reflexivity.
Qed.

Lemma occurs_extend (w a m b c : pystr) :
  occurs w m -> occurs w (a ++ (m ++ b) ++ c).
Proof.
  intros (x & n & y & -> & Hs). exists (a ++ x), n, (y ++ b ++ c).
  split; [|exact Hs]. rewrite <- !app_assoc. reflexivity.
Qed.

(** X21: the heuristic of [is_test_file]: the path holds [test] or [spec],
    in any case; the three other patterns add nothing to these two. *)
Lemma is_test_file_occurs (path : pystr) :
  is_test_file path = true
  <-> occurs (str "test") path \/ occurs (str "spec") path.
Proof.
  unfold is_test_file, EXCLUDE_PATTERNS. simpl existsb.
  rewrite orb_false_r, !orb_true_iff, !re_search_wrapped. unfold lits.
  split.
  - intros [(a & m & b & -> & Hl)|[(a & m & b & -> & Hl)|[(a & m & b & -> & Hl)
           |[(a & m & b & -> & Hl)|(a & m & b & -> & Hl)]]]].
    + left. inversion Hl as [| | |? ? m1 m2 H1 H2| | | | | |]; subst.
      apply (lang_lits (str "/test")) in H1.
      apply (occurs_extend (w := str "test") a (m := m1) m2 b).
      apply (occurs_inside (str "/") (str "test") []).
      exists [], m1, []. rewrite app_nil_r. split; [reflexivity|exact H1].
    + left. apply (lang_lits (str "test")) in Hl. exists a, m, b. auto.
    + right. apply (lang_lits (str "spec")) in Hl. exists a, m, b. auto.
    + left. apply (lang_lits (str "_test.")) in Hl.
      apply (occurs_inside (str "_") (str "test") (str ".")).
      exists a, m, b. auto.
    + right. apply (lang_lits (str "_spec.")) in Hl.
      apply (occurs_inside (str "_") (str "spec") (str ".")).
      exists a, m, b. auto.
  - intros [(a & m & b & -> & Hs)|(a & m & b & -> & Hs)].
    + right. left. exists a, m, b.
      split; [reflexivity|apply (lang_lits (str "test")), Hs].
    + right. right. left. exists a, m, b.
      split; [reflexivity|apply (lang_lits (str "spec")), Hs].
Qed.

(** * The aggregator *)

Section Aggregator.

Variable include_tests : bool.

Let step := summarize_step include_tests.
Let keeps := kept include_tests.

Lemma summarize_step_kept acc file :
  keeps file = true ->
  step acc file =
    (total_added acc + ChangedFile.additions file,
     total_deleted acc + ChangedFile.deletions file,
     total_changes acc + ChangedFile.changes file,
     file_changes acc ++ [classify file]).
Proof.
  destruct acc as [[[a d] c] fc]. unfold keeps, step, kept, summarize_step.
  intros Hk. apply negb_true_iff in Hk. rewrite Hk. reflexivity.
Qed.

Lemma summarize_step_dropped acc file :
  keeps file = false -> step acc file = acc.
Proof.
  destruct acc as [[[a d] c] fc]. unfold keeps, step, kept, summarize_step.
  intros Hk. apply negb_false_iff in Hk. rewrite Hk. reflexivity.
Qed.

(** The loop, from any state of its accumulators. *)
Lemma summarize_loop files : forall acc,
  fold_left step files acc =
    (total_added acc + sum_of ChangedFile.additions (filter keeps files),
     total_deleted acc + sum_of ChangedFile.deletions (filter keeps files),
     total_changes acc + sum_of ChangedFile.changes (filter keeps files),
     file_changes acc ++ map classify (filter keeps files)).
Proof.
  induction files as [|file files IH]; intros acc; simpl.
  - destruct acc as [[[a d] c] fc]. cbn. rewrite !Z.add_0_r, app_nil_r.
    reflexivity.
  - rewrite IH. destruct (keeps file) eqn:Hk.
    + rewrite (summarize_step_kept _ _ Hk). cbn.
      rewrite <- app_assoc, !Z.add_assoc. reflexivity.
    + rewrite (summarize_step_dropped _ _ Hk). reflexivity.
Qed.

Lemma summarize_files_spec files :
  summarize_files files include_tests =
    (sum_of ChangedFile.additions (filter keeps files),
     sum_of ChangedFile.deletions (filter keeps files),
     sum_of ChangedFile.changes (filter keeps files),
     map classify (filter keeps files)).
Proof.
  unfold summarize_files. fold step. rewrite summarize_loop. reflexivity.
Qed.

End Aggregator.

Lemma sum_of_cons {A} (f : A -> Z) (x : A) (l : list A) :
  sum_of f (x :: l) = f x + sum_of f l.
Proof. reflexivity. Qed.

Lemma sum_of_classify (l : list ChangedFile.t) :
  sum_of FileChange.additions (map classify l) = sum_of ChangedFile.additions l
  /\ sum_of FileChange.deletions (map classify l) = sum_of ChangedFile.deletions l
  /\ sum_of FileChange.changes (map classify l) = sum_of ChangedFile.changes l.
Proof.
  induction l as [|f l (IHa & IHd & IHc)]; [auto|].
  simpl map. rewrite !sum_of_cons, IHa, IHd, IHc. auto.
Qed.

Lemma sum_of_consistent (l : list ChangedFile.t) :
  Forall consistent l ->
  sum_of ChangedFile.changes l
  = sum_of ChangedFile.additions l + sum_of ChangedFile.deletions l.
Proof.
  induction 1 as [|f l Hf _ IH]; [reflexivity|].
  rewrite !sum_of_cons. unfold consistent in Hf. lia.
Qed.

Lemma Forall_filter {A} (P : A -> Prop) (f : A -> bool) (l : list A) :
  Forall P l -> Forall P (filter f l).
Proof.
  induction 1 as [|x l Hx _ IH]; simpl; [constructor|].
  destruct (f x); [constructor|]; assumption.
Qed.

Lemma subseq_filter {A} (f : A -> bool) (l : list A) :
  subseq (filter f l) l.
Proof.
  induction l as [|x l IH]; simpl; [constructor|].
  destruct (f x); constructor; assumption.
Qed.

Lemma subseq_map {A B} (g : A -> B) (l1 l2 : list A) :
  subseq l1 l2 -> subseq (map g l1) (map g l2).
Proof.
  induction 1; simpl; constructor; assumption.
Qed.

Lemma filter_idem {A} (f : A -> bool) (l : list A) :
  filter f (filter f l) = filter f l.
Proof.
  induction l as [|x l IH]; simpl; [reflexivity|].
  destruct (f x) eqn:Hx; simpl; [rewrite Hx, IH|]; auto.
Qed.

(** C1: the totals of [summarize_files] are the sums of the additions,
    deletions and changes of the files it retained, and over changed files
    that satisfy the invariant of the data model
    ([changes = additions + deletions]) the total of changes is the total
    added plus the total deleted. *)
Theorem summarize_totals_additive files include_tests :
  let s := summarize_files files include_tests in
  total_added s = sum_of FileChange.additions (file_changes s)
  /\ total_deleted s = sum_of FileChange.deletions (file_changes s)
  /\ total_changes s = sum_of FileChange.changes (file_changes s)
  /\ (Forall consistent files ->
      total_changes s = total_added s + total_deleted s).
Proof.
  cbv zeta. rewrite summarize_files_spec.
  cbv [total_added total_deleted total_changes file_changes fst snd].
  destruct (sum_of_classify (filter (kept include_tests) files))
    as (Ha & Hd & Hc).
  rewrite Ha, Hd, Hc. repeat split.
  intros Hall. apply sum_of_consistent, Forall_filter, Hall.
Qed.

Lemma scenario_files_consistent : Forall consistent scenario_files.
Proof. repeat constructor. Qed.

Lemma summarize_totals_additive_witness :
  total_changes (summarize_files scenario_files false)
  = total_added (summarize_files scenario_files false)
    + total_deleted (summarize_files scenario_files false).
Proof.
  apply (summarize_totals_additive scenario_files false).
  exact scenario_files_consistent.
Defined.

(** Without the invariant on the input the two totals differ. *)
Example totals_need_consistency :
  let s := summarize_files [ChangedFile.mk (str "a.py") 1 1 5] true in
  total_changes s = 5 /\ total_added s + total_deleted s = 2.
Proof. vm_compute. split; reflexivity. Qed.

(** C2: with [include_tests] false, [summarize_files] drops exactly the files
    whose path [is_test_file] accepts: the retained list is the
    classification of the other files, in order, and the totals are sums
    over those files only; with [include_tests] true every file is retained
    and classified.  On the two files of the scenario the totals are
    10, 2 and 12 and only [src/main.go] is retained. *)
Theorem summarize_drops_test_files files :
  let others :=
    filter (fun f => negb (is_test_file (ChangedFile.filename f))) files in
  summarize_files files false =
    (sum_of ChangedFile.additions others,
     sum_of ChangedFile.deletions others,
     sum_of ChangedFile.changes others,
     map classify others)
  /\ summarize_files files true =
       (sum_of ChangedFile.additions files,
        sum_of ChangedFile.deletions files,
        sum_of ChangedFile.changes files,
        map classify files)
  /\ summarize_files scenario_files false =
       (10, 2, 12,
        [FileChange.mk (str "src/main.go") 10 2 12 8 false]).
Proof.
  cbv zeta. split; [|split].
  - rewrite summarize_files_spec. reflexivity.
  - rewrite summarize_files_spec.
    assert (Hall : filter (kept true) files = files).
    { clear. induction files as [|f l IH]; simpl; [|rewrite IH]; reflexivity. }
    rewrite Hall. reflexivity.
  - vm_compute. reflexivity.
Qed.

(** C8: the retained list is the pointwise classification of a subsequence
    of the input, in the input's order, and summarising the retained input
    files again with the same [include_tests] gives the same summary. *)
Theorem summarize_stable_idempotent files include_tests :
  let retained := filter (kept include_tests) files in
  subseq retained files
  /\ file_changes (summarize_files files include_tests) = map classify retained
  /\ subseq (file_changes (summarize_files files include_tests))
       (map classify files)
  /\ summarize_files retained include_tests
     = summarize_files files include_tests.
Proof.
  cbv zeta. rewrite !summarize_files_spec, filter_idem.
  cbv [file_changes snd]. repeat split.
  - apply subseq_filter.
  - apply subseq_map, subseq_filter.
Qed.

(** * GitLab normalisation *)

Lemma len_cons {A} (x : A) (l : list A) : len (x :: l) = len l + 1.
Proof. unfold len. simpl length. lia. Qed.

Lemma count_cons {A} (f : A -> bool) (x : A) (l : list A) :
  count f (x :: l) = (if f x then 1 else 0) + count f l.
Proof.
  unfold count. simpl. destruct (f x); [rewrite len_cons|]; lia.
Qed.

(** A line cannot open with both signs. *)
Lemma addition_not_deletion line :
  is_addition line = true -> is_deletion line = false.
Proof.
  unfold is_addition, is_deletion. destruct line as [|c line]; [discriminate|].
  change (str "+") with [43%N]. change (str "-") with [45%N].
  cbv [startswith]. destruct (N.eqb_spec 43 c) as [<-|]; [|discriminate].
  reflexivity.
Qed.

Lemma count_step_cases acc line :
  count_step acc line =
    (fst acc + (if is_addition line then 1 else 0),
     snd acc + (if is_deletion line then 1 else 0)).
Proof.
  destruct acc as [added deleted]. unfold count_step.
  fold (is_addition line). fold (is_deletion line).
  destruct (is_addition line) eqn:Ha.
  - rewrite (addition_not_deletion _ Ha). cbn. f_equal; lia.
  - destruct (is_deletion line); cbn; f_equal; lia.
Qed.

Lemma count_loop lines : forall acc,
  fold_left count_step lines acc =
    (fst acc + count is_addition lines, snd acc + count is_deletion lines).
Proof.
  induction lines as [|line lines IH]; intros acc; simpl.
  - destruct acc. unfold count, len. cbn. f_equal; lia.
  - rewrite IH, count_step_cases, !count_cons. cbn. f_equal; lia.
Qed.

Lemma count_diff_spec diff :
  count_diff diff =
    (count is_addition (splitlines diff), count is_deletion (splitlines diff)).
Proof. unfold count_diff. rewrite count_loop. reflexivity. Qed.

Lemma append_loop {A B} (g : A -> B) (l : list A) : forall acc,
  fold_left (fun out x => out ++ [g x]) l acc = acc ++ map g l.
Proof.
  induction l as [|x l IH]; intros acc; simpl.
  - rewrite app_nil_r. reflexivity.
  - rewrite IH, <- app_assoc. reflexivity.
Qed.

(** A successful response is normalised file by file, in order. *)
Lemma fetch_mr_files_gitlab_ok text files :
  fetch_mr_files_gitlab (Response.mk 200 text (Some files))
  = Ok (map normalize_change files).
Proof. unfold fetch_mr_files_gitlab. simpl. rewrite append_loop. reflexivity. Qed.

(** C3: the normalisation of a GitLab change counts as additions exactly the
    lines of the diff that begin with [+] and not with [+++], as deletions
    exactly those that begin with [-] and not with [---], and sets
    [changes] to their sum; the diff of the scenario gives 2, 1 and 3. *)
Theorem gitlab_diff_counts new_path diff :
  let f := normalize_change (GitLabChange.mk new_path (Some diff)) in
  ChangedFile.filename f = new_path
  /\ ChangedFile.additions f = count is_addition (splitlines diff)
  /\ ChangedFile.deletions f = count is_deletion (splitlines diff)
  /\ ChangedFile.changes f = ChangedFile.additions f + ChangedFile.deletions f
  /\ normalize_change (GitLabChange.mk new_path (Some scenario_diff))
     = ChangedFile.mk new_path 2 1 3.
Proof.
  cbv zeta. unfold normalize_change. simpl GitLabChange.diff.
  simpl GitLabChange.new_path. rewrite count_diff_spec.
  repeat split.
Qed.

(** * Strings and path segments *)

Lemma str_eqb_spec (s : pystr) : forall t : pystr, reflect (s = t) (str_eqb s t).
Proof.
  induction s as [|c s IH]; intros [|d t]; simpl; try (constructor; congruence).
  destruct (N.eqb_spec c d) as [->|Hcd]; simpl.
  - destruct (IH t) as [->|Hst]; constructor; congruence.
  - constructor. congruence.
Qed.

Lemma str_eqb_refl (s : pystr) : str_eqb s s = true.
Proof. destruct (str_eqb_spec s s); congruence. Qed.

Lemma str_eqb_neq (s t : pystr) : s <> t -> str_eqb s t = false.
Proof. destruct (str_eqb_spec s t); congruence. Qed.

Lemma split_nonempty sep (s : pystr) : split sep s <> [].
Proof.
  destruct s as [|c s]; simpl; [discriminate|].
  destruct (N.eqb c sep); [discriminate|].
  destruct (split sep s); discriminate.
Qed.

Lemma split_free sep (s : pystr) : free_of sep s -> split sep s = [s].
Proof.
  induction s as [|c s IH]; intros Hfree; simpl; [reflexivity|].
  destruct (N.eqb_spec c sep) as [->|_].
  - exfalso. apply Hfree. left. reflexivity.
  - rewrite IH; [reflexivity|]. intros Hin. apply Hfree. right. exact Hin.
Qed.

Lemma split_app_sep sep (w rest : pystr) :
  free_of sep w -> split sep (w ++ sep :: rest) = w :: split sep rest.
Proof.
  induction w as [|c w IH]; intros Hfree; simpl.
  - rewrite N.eqb_refl. reflexivity.
  - destruct (N.eqb_spec c sep) as [->|_].
    + exfalso. apply Hfree. left. reflexivity.
    + rewrite IH; [reflexivity|]. intros Hin. apply Hfree. right. exact Hin.
Qed.

(** Every piece [split] returns is free of the separator. *)
Lemma split_pieces_free sep (s : pystr) : Forall (free_of sep) (split sep s).
Proof.
  induction s as [|c s IH]; simpl.
  - repeat constructor. intros [].
  - destruct (N.eqb_spec c sep) as [->|Hc].
    + constructor; [intros []|exact IH].
    + destruct (split sep s) as [|w ws]; [repeat constructor|].
      * intros [Hin|[]]. congruence.
      * inversion IH as [|? ? Hw Hws]; subst. constructor; [|exact Hws].
        intros [Hin|Hin]; [congruence|exact (Hw Hin)].
Qed.

Lemma split_join sep (segs : list pystr) :
  segs <> [] -> Forall (free_of sep) segs ->
  split sep (join [sep] segs) = segs.
Proof.
  induction segs as [|p [|q segs] IH]; intros Hne Hall; [congruence| |].
  - simpl. apply split_free. inversion Hall; assumption.
  - inversion Hall as [|? ? Hp Hrest]; subst.
    change (join [sep] (p :: q :: segs))
      with (p ++ sep :: join [sep] (q :: segs)).
    rewrite (split_app_sep _ Hp), IH; [reflexivity| |exact Hrest].
    discriminate.
Qed.

Lemma lstrip_stops c d (s : pystr) : d <> c -> lstrip c (d :: s) = d :: s.
Proof.
  intros Hd. simpl. destruct (N.eqb_spec d c); [contradiction|reflexivity].
Qed.

Lemma lstrip_sep c (s : pystr) : lstrip c (c :: s) = lstrip c s.
Proof. simpl. rewrite N.eqb_refl. reflexivity. Qed.

Lemma rstrip_stops c d (s : pystr) : d <> c -> rstrip c (s ++ [d]) = s ++ [d].
Proof.
  intros Hd. unfold rstrip. rewrite rev_app_distr. simpl rev at 2.
  simpl app. rewrite (lstrip_stops _ Hd).
  change (d :: rev s) with ([d] ++ rev s).
  rewrite rev_app_distr, rev_involutive. reflexivity.
Qed.

(** A joined list whose first piece is a non-empty segment opens with a
    character other than the separator, and likewise at its end. *)
Lemma join_opens sep (p : pystr) (segs : list pystr) :
  p <> [] -> free_of sep p ->
  exists d t, join [sep] (p :: segs) = d :: t /\ d <> sep.
Proof.
  intros Hne Hfree. destruct p as [|d p]; [congruence|].
  exists d. destruct segs as [|q segs]; simpl; eexists; (split; [reflexivity|]);
    intros ->; apply Hfree; left; reflexivity.
Qed.

Lemma join_closes sep (segs : list pystr) :
  segs <> [] -> last segs [] <> [] -> free_of sep (last segs []) ->
  exists t d, join [sep] segs = t ++ [d] /\ d <> sep.
Proof.
  induction segs as [|p [|q segs] IH]; intros Hne Hlast Hfree; [congruence| |].
  - simpl in *. destruct (exists_last Hlast) as (t & d & ->).
    exists t, d. split; [reflexivity|]. intros ->. apply Hfree.
    apply in_or_app. right. left. reflexivity.
  - destruct IH as (t & d & Heq & Hd); [discriminate|exact Hlast|exact Hfree|].
    exists (p ++ [sep] ++ t), d. split; [|exact Hd].
    change (join [sep] (p :: q :: segs))
      with (p ++ [sep] ++ join [sep] (q :: segs)).
    rewrite Heq, <- !app_assoc. reflexivity.
Qed.

(** The segments of the path [/s1/s2/.../sn]. *)
Lemma path_parts_of_joined netloc (segs : list pystr) :
  segs <> [] -> Forall (free_of (chr "/")) segs ->
  hd [] segs <> [] -> last segs [] <> [] ->
  path_parts_of (ParseResult.mk netloc (chr "/" :: join [chr "/"] segs)) = segs.
Proof.
  intros Hne Hall Hhd Hlast. unfold path_parts_of, strip.
  simpl ParseResult.path.
  assert (Hstrip : lstrip (chr "/") (chr "/" :: join [chr "/"] segs)
                   = join [chr "/"] segs).
  { destruct segs as [|p segs]; [congruence|].
    pose proof (Forall_inv Hall) as Hp. simpl hd in Hhd.
    destruct (join_opens segs Hhd Hp) as (d & t & Heq & Hd).
    rewrite lstrip_sep, Heq. apply lstrip_stops, Hd. }
  rewrite Hstrip.
  assert (Hfree : free_of (chr "/") (last segs [])).
  { apply Forall_forall with (x := last segs []) in Hall; [exact Hall|].
    destruct (exists_last Hne) as (l & x & ->). rewrite last_last.
    apply in_or_app. right. left. reflexivity. }
  destruct (join_closes Hne Hlast Hfree) as (t & d & Heq & Hd).
  rewrite Heq, (rstrip_stops _ Hd), <- Heq. apply split_join; assumption.
Qed.

(** * List indexing *)

Lemma len_nonneg {A} (l : list A) : 0 <= len l.
Proof. unfold len. lia. Qed.

Lemma len_app {A} (l1 l2 : list A) : len (l1 ++ l2) = len l1 + len l2.
Proof. unfold len. rewrite length_app. lia. Qed.

Lemma getitem_nonneg {A} (l : list A) i :
  0 <= i -> getitem l i = nth_error l (Z.to_nat i).
Proof.
  intros Hi. cbv beta zeta delta [getitem].
  rewrite !(proj2 (Z.ltb_ge i 0) Hi). reflexivity.
Qed.

Lemma item_app_right {A} (l1 l2 : list A) k :
  0 <= k -> item (l1 ++ l2) (len l1 + k) = item l2 k.
Proof.
  intros Hk. pose proof (len_nonneg l1) as Hl. unfold item.
  rewrite !getitem_nonneg by lia.
  rewrite nth_error_app2 by (unfold len in *; lia).
  replace (Z.to_nat (len l1 + k) - length l1)%nat with (Z.to_nat k)
    by (unfold len in *; lia).
  reflexivity.
Qed.

Lemma item_in_range {A} (l : list A) i :
  0 <= i < len l -> exists x, item l i = Ok x /\ In x l.
Proof.
  intros Hi. unfold item. rewrite getitem_nonneg by lia.
  destruct (nth_error l (Z.to_nat i)) as [x|] eqn:Hnth.
  - exists x. split; [reflexivity|]. eapply nth_error_In, Hnth.
  - apply nth_error_None in Hnth. unfold len in *. lia.
Qed.

Lemma slice_to_app {A} (l1 l2 : list A) : slice_to (l1 ++ l2) (len l1) = l1.
Proof.
  pose proof (len_nonneg l1) as Hl. pose proof (len_nonneg l2) as Hl2.
  cbv beta zeta delta [slice_to clamp].
  rewrite (proj2 (Z.ltb_ge (len l1) 0) Hl), len_app.
  replace (Z.to_nat (Z.min (Z.max (len l1) 0) (len l1 + len l2)))
    with (length l1 + 0)%nat by (unfold len in *; lia).
  rewrite firstn_app_2. simpl. apply app_nil_r.
Qed.

Lemma index_app_absent (x : pystr) (l1 l2 : list pystr) :
  Forall (fun y => y <> x) l1 ->
  index x (l1 ++ l2) = option_map (Z.add (len l1)) (index x l2).
Proof.
  induction 1 as [|y l1 Hy _ IH]; simpl.
  - destruct (index x l2); reflexivity.
  - rewrite (str_eqb_neq Hy), IH, len_cons.
    destruct (index x l2) as [i|]; [|reflexivity].
    cbv [option_map]. apply f_equal. lia.
Qed.

Lemma mem_app_right (x : pystr) (l1 l2 : list pystr) :
  mem x l2 = true -> mem x (l1 ++ l2) = true.
Proof.
  unfold mem. intros H. rewrite existsb_app, H. apply orb_true_r.
Qed.

Lemma mem_index (x : pystr) (l : list pystr) :
  mem x l = true -> exists i, index x l = Some i /\ 0 <= i < len l.
Proof.
  unfold mem. induction l as [|y l IH]; simpl; [discriminate|].
  intros H. rewrite len_cons. pose proof (len_nonneg l).
  destruct (str_eqb_spec y x) as [->|Hyx].
  - exists 0. split; [reflexivity|lia].
  - destruct (str_eqb_spec x y) as [->|_]; [congruence|]. simpl in H.
    destruct (IH H) as (i & -> & Hi). exists (Z.succ i). split; [reflexivity|lia].
Qed.

Lemma join_two_nonempty sep (p q : pystr) (ps : list pystr) :
  sep <> [] -> join sep (p :: q :: ps) <> [].
Proof.
  intros Hsep.
  change (join sep (p :: q :: ps)) with (p ++ sep ++ join sep (q :: ps)).
  intros Heq. apply app_eq_nil in Heq. destruct Heq as [_ Heq].
  apply app_eq_nil in Heq. destruct Heq as [Heq _]. contradiction.
Qed.

(** * The resolver *)

Section ResolverFacts.

Variable urlparse : pystr -> ParseResult.t.
Variable lower : pystr -> pystr.

Local Notation "'host' url" := (host_of urlparse lower url) (at level 10).
Local Notation "'parts' url" := (parts_of urlparse url) (at level 10).
Local Notation "'resolve' url" := (extract_pr_info urlparse lower url)
  (at level 10).

(** The GitHub branch refuses a path of fewer than four segments and a path
    whose second-to-last segment is not [pull]. *)
Lemma github_rejects url :
  contains (str "github.com") (host url) = true ->
  len (parts url) < 4 \/
    (forall seg, getitem (parts url) (-2) = Some seg -> seg <> str "pull") ->
  resolve url = Err invalid_github.
Proof.
  unfold host_of, parts_of, extract_pr_info. intros -> Hbad.
  destruct (Z.ltb_spec (len (path_parts_of (urlparse url))) 4) as [|Hlen];
    [reflexivity|].
  destruct Hbad as [|Hseg]; [lia|]. unfold item, bind.
  destruct (getitem (path_parts_of (urlparse url)) (-2)) as [seg|] eqn:Hget.
  - rewrite (str_eqb_neq (Hseg seg eq_refl)). reflexivity.
  - exfalso. revert Hget. cbv beta zeta delta [getitem].
    change (-2 <? 0) with true. cbv iota.
    destruct (Z.ltb_spec (len (path_parts_of (urlparse url)) + -2) 0); [lia|].
    intros Hnth. apply nth_error_None in Hnth. unfold len in *. lia.
Qed.

(** C4: a URL on a GitHub host whose path has exactly the four segments
    owner, repo, [pull] and number resolves to the GitHub reference with
    that owner, repo and number. *)
Theorem github_resolution url owner repo number :
  contains (str "github.com") (host url) = true ->
  parts url = [owner; repo; str "pull"; number] ->
  resolve url = Ok (github, owner, repo, number).
Proof.
  unfold host_of, parts_of, extract_pr_info. intros -> ->. reflexivity.
Qed.

(** The same for the path written out: [/owner/repo/pull/number]. *)
Corollary github_resolution_of_path url owner repo number :
  contains (str "github.com") (host url) = true ->
  owner <> [] -> number <> [] ->
  Forall (free_of (chr "/")) [owner; repo; number] ->
  ParseResult.path (urlparse url)
  = chr "/" :: join [chr "/"] [owner; repo; str "pull"; number] ->
  resolve url = Ok (github, owner, repo, number).
Proof.
  intros Hhost Ho Hn Hfree Hpath.
  assert (Hparts : parts url = [owner; repo; str "pull"; number]).
  { unfold parts_of. destruct (urlparse url) as [netloc path].
    cbn [ParseResult.path] in Hpath. subst path. apply path_parts_of_joined; [discriminate| |exact Ho|exact Hn].
    inversion Hfree as [|? ? H1 Hfree1]; subst.
    inversion Hfree1 as [|? ? H2 Hfree2]; subst.
    inversion Hfree2 as [|? ? H3 _]; subst.
    repeat constructor; try assumption.
    vm_compute. intuition discriminate. }
  unfold host_of, parts_of, extract_pr_info in *.
  rewrite Hhost, Hparts. reflexivity.
Qed.

End ResolverFacts.

Lemma github_resolution_witness :
  extract_pr_info (parsed_as "GitHub.com" "/octocat/hello-world/pull/42")
    lower_ascii (str "https://GitHub.com/octocat/hello-world/pull/42")
  = Ok (github, str "octocat", str "hello-world", str "42").
Proof.
  apply (github_resolution
           (parsed_as "GitHub.com" "/octocat/hello-world/pull/42") lower_ascii
           (str "https://GitHub.com/octocat/hello-world/pull/42")
           (owner := str "octocat") (repo := str "hello-world")
           (number := str "42")).
  - vm_compute. reflexivity.
  - vm_compute. reflexivity.
Defined.

Lemma mem_In (x : pystr) (l : list pystr) : In x l -> mem x l = true.
Proof.
  intros Hin. unfold mem. apply existsb_exists. exists x.
  split; [exact Hin|apply str_eqb_refl].
Qed.

Section GitLabFacts.

Variable urlparse : pystr -> ParseResult.t.
Variable lower : pystr -> pystr.

Local Notation "'host' url" := (host_of urlparse lower url) (at level 10).
Local Notation "'parts' url" := (parts_of urlparse url) (at level 10).
Local Notation "'resolve' url" := (extract_pr_info urlparse lower url)
  (at level 10).

(** Any depth of groups: the owner is the groups joined by [/]. *)
Lemma gitlab_resolution_nested url groups project dash n :
  contains (str "github.com") (host url) = false ->
  contains (str "gitlab.com") (host url) = true ->
  groups <> [] ->
  Forall (fun g => g <> str "merge_requests") groups ->
  project <> str "merge_requests" ->
  dash <> str "merge_requests" ->
  parts url = groups ++ [project; dash; str "merge_requests"; n] ->
  resolve url = Ok (gitlab, join (str "/") groups, project, n).
Proof.
  unfold host_of, parts_of, extract_pr_info.
  intros -> -> Hne Hgroups Hproject Hdash ->.
  remember (str "merge_requests") as mr eqn:Hmr in *. clear Hmr.
  set (tail := [project; dash; mr; n]).
  assert (Hmem : mem mr (groups ++ tail) = true).
  { apply mem_app_right, mem_In. simpl. auto. }
  assert (Hidx : index mr (groups ++ tail) = Some (len groups + 2)).
  { rewrite (index_app_absent _ Hgroups). unfold tail. simpl index.
    rewrite (str_eqb_neq Hproject), (str_eqb_neq Hdash), str_eqb_refl.
    reflexivity. }
  assert (Hlen : len (groups ++ tail) = len groups + 4).
  { rewrite len_app. reflexivity. }
  assert (Hpos : 1 <= len groups).
  { destruct groups; [congruence|]. rewrite len_cons.
    pose proof (len_nonneg groups). lia. }
  rewrite Hmem, Hidx, Hlen. cbv [negb].
  rewrite Z.geb_leb, Z.gtb_ltb.
  destruct (Z.ltb_spec (len groups + 2) 2); [lia|].
  destruct (Z.leb_spec (len groups + 4) (len groups + 2 + 1)); [lia|].
  cbv [orb].
  replace (len groups + 2 - 2) with (len groups + 0) by lia.
  replace (len groups + 2 + 1) with (len groups + 3) by lia.
  rewrite !item_app_right by lia.
  rewrite Z.add_0_r, slice_to_app.
  change (item tail 0) with (Ok (A := pystr) project).
  change (item tail 3) with (Ok (A := pystr) n).
  replace (len groups + 2 - 3) with (len groups - 1) by lia.
  rewrite Z.geb_leb.
  destruct (Z.leb_spec 0 (len groups - 1)); [|lia].
  destruct groups as [|g [|g' groups]]; [congruence|reflexivity|].
  destruct (item_in_range ((g :: g' :: groups) ++ tail)
              (i := len (g :: g' :: groups) - 1)) as (x & -> & _).
  { rewrite len_app. pose proof (len_nonneg tail). lia. }
  cbv [bind]. rewrite !len_cons in *. pose proof (len_nonneg groups).
  destruct (Z.ltb_spec 0 (len groups + 1 + 1 - 1)); [reflexivity|lia].
Qed.

End GitLabFacts.

Lemma item_Ok_In {A} (l : list A) i x : item l i = Ok x -> In x l.
Proof.
  unfold item, getitem.
  destruct ((if i <? 0 then len l + i else i) <? 0); [discriminate|].
  destruct (nth_error l _) as [y|] eqn:Hnth; [|discriminate].
  intros [= <-]. eapply nth_error_In, Hnth.
Qed.

Lemma firstn_incl {A} n : forall (l : list A) x, In x (firstn n l) -> In x l.
Proof.
  induction n as [|n IH]; intros [|y l] x; simpl; try tauto.
  intros [->|Hin]; [left; reflexivity|right; apply IH, Hin].
Qed.

Lemma slice_to_length {A} (l : list A) k :
  0 <= k <= len l -> length (slice_to l k) = Z.to_nat k.
Proof.
  intros Hk. cbv beta zeta delta [slice_to clamp].
  rewrite (proj2 (Z.ltb_ge k 0)) by lia.
  rewrite length_firstn. unfold len in *. lia.
Qed.

Section ResolvedFields.

Variable urlparse : pystr -> ParseResult.t.
Variable lower : pystr -> pystr.

Local Notation "'host' url" := (host_of urlparse lower url) (at level 10).
Local Notation "'parts' url" := (parts_of urlparse url) (at level 10).
Local Notation "'resolve' url" := (extract_pr_info urlparse lower url)
  (at level 10).

(** C6, amended: on a host that is GitLab's and not GitHub's, a path
    [group/project/-/merge_requests/n] whose group and project are not
    themselves called [merge_requests] resolves to the GitLab reference
    with that group, project and number, and a path
    [g1/g2/project/-/merge_requests/n] under the same proviso resolves to
    the owner [g1/g2]. *)
Theorem gitlab_resolution url :
  contains (str "github.com") (host url) = false ->
  contains (str "gitlab.com") (host url) = true ->
  (forall group project n,
      group <> str "merge_requests" -> project <> str "merge_requests" ->
      parts url = [group; project; str "-"; str "merge_requests"; n] ->
      resolve url = Ok (gitlab, group, project, n))
  /\ (forall g1 g2 project n,
      g1 <> str "merge_requests" -> g2 <> str "merge_requests" ->
      project <> str "merge_requests" ->
      parts url = [g1; g2; project; str "-"; str "merge_requests"; n] ->
      resolve url = Ok (gitlab, g1 ++ str "/" ++ g2, project, n)).
Proof.
  intros Hgithub Hgitlab. split.
  - intros group project n Hgroup Hproject Hparts.
    apply gitlab_resolution_nested with (groups := [group]) (dash := str "-");
      [assumption|assumption|discriminate|repeat constructor; assumption
      |assumption|discriminate|exact Hparts].
  - intros g1 g2 project n Hg1 Hg2 Hproject Hparts.
    change (g1 ++ str "/" ++ g2) with (join (str "/") [g1; g2]).
    apply gitlab_resolution_nested with (groups := [g1; g2]) (dash := str "-");
      [assumption|assumption|discriminate|repeat constructor; assumption
      |assumption|discriminate|exact Hparts].
Qed.

(** C7, amended: the repo and the number of a resolved reference are
    segments of the path, taken as they are and so free of [/]; when no
    segment of the path is empty they are not empty, and the owner is empty
    only for a GitLab path with just two segments before
    [merge_requests].  Nothing makes the number a string of digits. *)
Theorem resolved_fields_are_segments url plat owner repo number :
  resolve url = Ok (plat, owner, repo, number) ->
  In repo (parts url) /\ In number (parts url)
  /\ free_of (chr "/") repo /\ free_of (chr "/") number
  /\ (Forall (fun seg => seg <> []) (parts url) ->
      repo <> [] /\ number <> []
      /\ (owner = [] ->
          plat = gitlab
          /\ index (str "merge_requests") (parts url) = Some 2)).
Proof.
  intros Hres.
  assert (Hfree : Forall (free_of (chr "/")) (parts url))
    by apply split_pieces_free.
  enough (Hin : In repo (parts url) /\ In number (parts url)
                /\ (Forall (fun seg => seg <> []) (parts url) -> owner = [] ->
                    plat = gitlab
                    /\ index (str "merge_requests") (parts url) = Some 2)).
  { destruct Hin as (Hrepo & Hnumber & Howner).
    rewrite Forall_forall in Hfree.
    split; [exact Hrepo|]. split; [exact Hnumber|].
    split; [apply Hfree, Hrepo|]. split; [apply Hfree, Hnumber|].
    intros Hall. pose proof Hall as Hne. rewrite Forall_forall in Hne.
    split; [apply Hne, Hrepo|]. split; [apply Hne, Hnumber|].
    apply Howner, Hall. }
  revert Hres. unfold parts_of, extract_pr_info.
  set (ps := path_parts_of (urlparse url)). clearbody ps. clear Hfree.
  destruct (contains (str "github.com") _).
  - destruct (len ps <? 4); [discriminate|].
    destruct (item ps (-2)) as [seg|]; [|discriminate]. cbv [bind].
    destruct (negb (str_eqb seg (str "pull"))); [discriminate|].
    destruct (slice_to ps 4) as [|o [|r [|x [|num [|? ?]]]]] eqn:Hslice;
      try discriminate.
    intros [= <- <- <- <-].
    assert (Hincl : forall y, In y [o; r; x; num] -> In y ps).
    { intros y Hy. rewrite <- Hslice in Hy. eapply firstn_incl, Hy. }
    split; [apply Hincl; simpl; tauto|]. split; [apply Hincl; simpl; tauto|].
    intros Hall ->. rewrite Forall_forall in Hall.
    exfalso. apply (Hall []); [apply Hincl; simpl; tauto|reflexivity].
  - destruct (contains (str "gitlab.com") _); [|discriminate].
    destruct (negb (mem (str "merge_requests") ps)); [discriminate|].
    destruct (index (str "merge_requests") ps) as [mr_idx|]; [|discriminate].
    rewrite !Z.geb_leb, Z.gtb_ltb.
    destruct (Z.ltb_spec mr_idx 2) as [|Hlo]; [discriminate|].
    destruct (Z.leb_spec (len ps) (mr_idx + 1)) as [|Hhi]; [discriminate|].
    cbv [orb].
    destruct (item ps (mr_idx - 2)) as [repo0|] eqn:Hrepo; [|discriminate].
    cbv [bind].
    destruct (Z.leb_spec 0 (mr_idx - 3)) as [Hthree|Hthree].
    + destruct (item ps (mr_idx - 3)) as [owner0|] eqn:Howner; [|discriminate].
      destruct (item ps (mr_idx + 1)) as [num|] eqn:Hnum; [|discriminate].
      intros [= <- <- <- <-].
      split; [eapply item_Ok_In; eassumption|].
      split; [eapply item_Ok_In; eassumption|].
      intros Hall Hempty. exfalso.
      destruct (Z.ltb_spec 0 (mr_idx - 3)) as [Hdeep|Hflat].
      * pose proof (@slice_to_length _ ps (mr_idx - 2)) as Hlen.
        destruct (slice_to ps (mr_idx - 2)) as [|p [|q rest]].
        -- simpl in Hlen. lia.
        -- simpl in Hlen. lia.
        -- revert Hempty. apply join_two_nonempty. discriminate.
      * subst owner0. rewrite Forall_forall in Hall.
        apply (Hall []); [eapply item_Ok_In; eassumption|reflexivity].
    + destruct (item ps (mr_idx + 1)) as [num|] eqn:Hnum; [|discriminate].
      destruct (Z.ltb_spec 0 (mr_idx - 3)); [lia|].
      intros [= <- <- <- <-].
      split; [eapply item_Ok_In; eassumption|].
      split; [eapply item_Ok_In; eassumption|].
      intros _ _. split; [reflexivity|]. f_equal. lia.
Qed.

End ResolvedFields.

(** C5: on [https://github.com/a/b/c/pull/1], a GitHub URL whose path has
    five segments, the resolver does not fail: the guard looks at the
    second-to-last segment while the fields are read from the first four,
    and the literal [pull] is returned as the number. *)
Theorem github_extra_segment_accepted :
  extract_pr_info (parsed_as "github.com" "/a/b/c/pull/1") lower_ascii
    (str "https://github.com/a/b/c/pull/1")
  = Ok (github, str "a", str "b", str "pull").
Proof. vm_compute. reflexivity. Qed.

(** C6, as stated, fails: a group called [merge_requests] is taken for
    the marker segment and the URL is refused. *)
Lemma gitlab_group_named_marker :
  let url := str "https://gitlab.com/merge_requests/app/-/merge_requests/7" in
  let urlparse :=
    parsed_as "gitlab.com" "/merge_requests/app/-/merge_requests/7" in
  contains (str "gitlab.com") (host_of urlparse lower_ascii url) = true
  /\ parts_of urlparse url
     = [str "merge_requests"; str "app"; str "-"; str "merge_requests";
        str "7"]
  /\ extract_pr_info urlparse lower_ascii url = Err invalid_gitlab.
Proof. vm_compute. repeat split. Qed.

(** A host that names both platforms is taken for GitHub. *)
Example gitlab_host_naming_github :
  let url := str "https://github.com.gitlab.com/g/app/-/merge_requests/7" in
  let urlparse :=
    parsed_as "github.com.gitlab.com" "/g/app/-/merge_requests/7" in
  contains (str "gitlab.com") (host_of urlparse lower_ascii url) = true
  /\ extract_pr_info urlparse lower_ascii url = Err invalid_github.
Proof. vm_compute. repeat split. Qed.

Lemma gitlab_resolution_witness :
  extract_pr_info (parsed_as "gitlab.com" "/gnome/gimp/-/merge_requests/7")
    lower_ascii (str "https://gitlab.com/gnome/gimp/-/merge_requests/7")
  = Ok (gitlab, str "gnome", str "gimp", str "7")
  /\ extract_pr_info
       (parsed_as "gitlab.com" "/gnome/world/gimp/-/merge_requests/7")
       lower_ascii
       (str "https://gitlab.com/gnome/world/gimp/-/merge_requests/7")
     = Ok (gitlab, str "gnome/world", str "gimp", str "7").
Proof.
  split.
  - apply (proj1 (gitlab_resolution
                    (parsed_as "gitlab.com" "/gnome/gimp/-/merge_requests/7")
                    lower_ascii
                    (str "https://gitlab.com/gnome/gimp/-/merge_requests/7")
                    eq_refl eq_refl));
      [vm_compute; discriminate|vm_compute; discriminate|reflexivity].
  - apply (proj2 (gitlab_resolution
                    (parsed_as "gitlab.com"
                       "/gnome/world/gimp/-/merge_requests/7")
                    lower_ascii
                    (str "https://gitlab.com/gnome/world/gimp/-/merge_requests/7")
                    eq_refl eq_refl) (str "gnome") (str "world"));
      [vm_compute; discriminate|vm_compute; discriminate
      |vm_compute; discriminate|reflexivity].
Defined.

(** C7, as stated, fails: a resolved number that is not made of digits. *)
Lemma resolved_number_not_digits :
  extract_pr_info (parsed_as "github.com" "/o/r/pull/abc") lower_ascii
    (str "https://github.com/o/r/pull/abc")
  = Ok (github, str "o", str "r", str "abc")
  /\ ref_invariant (github, str "o", str "r", str "abc") = false.
Proof. vm_compute. split; reflexivity. Qed.

(** An owner that is empty. *)
Example resolved_owner_empty :
  extract_pr_info (parsed_as "gitlab.com" "/app/-/merge_requests/7")
    lower_ascii (str "https://gitlab.com/app/-/merge_requests/7")
  = Ok (gitlab, [], str "app", str "7").
Proof. vm_compute. reflexivity. Qed.

Lemma resolved_fields_are_segments_witness :
  let urlparse := parsed_as "gitlab.com" "/app/-/merge_requests/7" in
  let url := str "https://gitlab.com/app/-/merge_requests/7" in
  In (str "app") (parts_of urlparse url) /\ In (str "7") (parts_of urlparse url)
  /\ free_of (chr "/") (str "app") /\ free_of (chr "/") (str "7")
  /\ (Forall (fun seg => seg <> []) (parts_of urlparse url) ->
      str "app" <> [] /\ str "7" <> []
      /\ (@nil char = [] ->
          gitlab = gitlab
          /\ index (str "merge_requests") (parts_of urlparse url) = Some 2)).
Proof.
  apply (resolved_fields_are_segments
           (parsed_as "gitlab.com" "/app/-/merge_requests/7") lower_ascii
           (str "https://gitlab.com/app/-/merge_requests/7")).
  vm_compute. reflexivity.
Defined.

(** * The presenter *)

Lemma len_repeat {A} (x : A) n : len (repeat x n) = Z.of_nat n.
Proof. unfold len. rewrite repeat_length. reflexivity. Qed.

Lemma ljust_len (s : pystr) width :
  len (ljust s width) = Z.max (len s) width.
Proof.
  unfold ljust. rewrite len_app, len_repeat.
  pose proof (len_nonneg s). lia.
Qed.

Lemma ljust_full (s : pystr) width : width <= len s -> ljust s width = s.
Proof.
  intros Hw. unfold ljust.
  replace (Z.to_nat (width - len s)) with 0%nat by lia.
  apply app_nil_r.
Qed.

(** Padding cannot complete or create an occurrence of a text that shares
    no character with it. *)
Lemma startswith_pad (sub : pystr) : forall s pad : pystr,
  sub <> [] -> (forall c, In c sub -> ~ In c pad) ->
  startswith (s ++ pad) sub = startswith s sub.
Proof.
  induction sub as [|c sub IH]; intros s pad Hne Hdisj; [congruence|].
  destruct s as [|d s]; simpl.
  - destruct pad as [|d pad]; [reflexivity|]. simpl.
    destruct (N.eqb_spec c d) as [->|_]; [|reflexivity].
    exfalso. apply (Hdisj d); left; reflexivity.
  - destruct sub as [|c' sub]; [reflexivity|].
    rewrite IH; [reflexivity|discriminate|].
    intros x Hx. apply Hdisj. right. exact Hx.
Qed.

Lemma contains_pad (sub s pad : pystr) :
  sub <> [] -> (forall c, In c sub -> ~ In c pad) ->
  contains sub (s ++ pad) = contains sub s.
Proof.
  intros Hne Hdisj. induction s as [|d s IH].
  - simpl app. transitivity false.
    + clear -Hne Hdisj. induction pad as [|d pad IH].
      * destruct sub; [congruence|reflexivity].
      * simpl contains. rewrite IH.
        -- rewrite <- (app_nil_l (d :: pad)), startswith_pad by assumption.
           destruct sub; [congruence|reflexivity].
        -- intros c Hc Hin. apply (Hdisj c Hc). right. exact Hin.
    + destruct sub; [congruence|reflexivity].
  - change ((d :: s) ++ pad) with (d :: (s ++ pad)). simpl contains.
    rewrite IH. change (d :: (s ++ pad)) with ((d :: s) ++ pad).
    rewrite startswith_pad by assumption. reflexivity.
Qed.

Lemma truncate_middle_short (path : pystr) :
  len path <= 60 ->
  truncate_middle path default_max_length
  = path ++ repeat (chr " ") (Z.to_nat (60 - len path)).
Proof.
  intros Hlen. unfold truncate_middle, default_max_length.
  destruct (Z.leb_spec (len path) 60); [reflexivity|lia].
Qed.

Lemma truncate_middle_long (path : pystr) :
  60 < len path ->
  truncate_middle path default_max_length
  = firstn 28 path ++ str "..." ++ skipn (length path - 28) path ++ str " ".
Proof.
  intros Hlen. unfold truncate_middle, default_max_length.
  destruct (Z.leb_spec (len path) 60); [lia|].
  change ((60 - 3) / 2) with 28. change (- (28)) with (-28).
  assert (Hto : slice_to path 28 = firstn 28 path).
  { cbv beta zeta delta [slice_to clamp]. change (28 <? 0) with false.
    cbv iota. f_equal. unfold len in *. lia. }
  assert (Hfrom : slice_from path (-28) = skipn (length path - 28) path).
  { cbv beta zeta delta [slice_from clamp]. change (-28 <? 0) with true.
    cbv iota. f_equal. unfold len in *. lia. }
  rewrite Hto, Hfrom. unfold ljust.
  assert (Hpad : Z.to_nat (60 - len (firstn 28 path ++ str "..."
                                      ++ skipn (length path - 28) path))
                 = 1%nat).
  { rewrite !len_app. unfold len in *.
    rewrite length_firstn, length_skipn. simpl length. lia. }
  rewrite Hpad, <- !app_assoc. reflexivity.
Qed.

(** C9: with [truncate_paths] set, the field of a path of at most 60
    characters is the path followed by spaces up to width 60; nothing is
    put inside it, and it holds an ellipsis only where the path does. *)
Theorem short_path_is_padded (path : pystr) :
  len path <= 60 ->
  path_field true path = path ++ repeat (chr " ") (Z.to_nat (60 - len path))
  /\ len (path_field true path) = 60
  /\ contains (str "...") (path_field true path) = contains (str "...") path.
Proof.
  intros Hlen.
  assert (Hfield : path_field true path
                   = path ++ repeat (chr " ") (Z.to_nat (60 - len path))).
  { unfold path_field. rewrite ljust_full.
    - apply truncate_middle_short, Hlen.
    - rewrite (truncate_middle_short _ Hlen), len_app, len_repeat.
      pose proof (len_nonneg path). lia. }
  rewrite Hfield. split; [reflexivity|]. split.
  - rewrite len_app, len_repeat. pose proof (len_nonneg path). lia.
  - apply contains_pad; [discriminate|].
    intros c Hc Hin. apply repeat_spec in Hin. subst c.
    vm_compute in Hc. intuition discriminate.
Qed.

Lemma short_path_is_padded_witness :
  path_field true (str "src/main.go")
  = str "src/main.go" ++ repeat (chr " ") 49
  /\ len (path_field true (str "src/main.go")) = 60
  /\ contains (str "...") (path_field true (str "src/main.go"))
     = contains (str "...") (str "src/main.go").
Proof.
  apply (short_path_is_padded (str "src/main.go")). vm_compute. discriminate.
Defined.

(** C10: with the default width, [truncate_middle] always returns 60
    characters: a path of at most 60 is padded with spaces, and a longer
    one becomes its first 28 characters, [...], its last 28 characters and
    one space. *)
Theorem truncate_middle_width (path : pystr) :
  len (truncate_middle path default_max_length) = 60
  /\ (len path <= 60 ->
      truncate_middle path default_max_length
      = path ++ repeat (chr " ") (Z.to_nat (60 - len path)))
  /\ (60 < len path ->
      truncate_middle path default_max_length
      = firstn 28 path ++ str "..." ++ skipn (length path - 28) path
        ++ str " "
      /\ length (firstn 28 path) = 28%nat
      /\ length (skipn (length path - 28) path) = 28%nat).
Proof.
  split; [|split].
  - destruct (Z.le_gt_cases (len path) 60) as [Hshort|Hlong].
    + rewrite (truncate_middle_short _ Hshort), len_app, len_repeat.
      pose proof (len_nonneg path). lia.
    + rewrite (truncate_middle_long _ Hlong), !len_app. unfold len in *.
      rewrite length_firstn, length_skipn. simpl length. lia.
  - apply truncate_middle_short.
  - intros Hlong. split; [apply truncate_middle_long, Hlong|].
    rewrite length_firstn, length_skipn. unfold len in *. lia.
Qed.

Lemma truncate_middle_width_witness :
  truncate_middle long_path default_max_length
  = firstn 28 long_path ++ str "..."
    ++ skipn (length long_path - 28) long_path ++ str " "
  /\ length (firstn 28 long_path) = 28%nat
  /\ length (skipn (length long_path - 28) long_path) = 28%nat.
Proof.
  apply (proj2 (proj2 (truncate_middle_width long_path))).
  vm_compute. reflexivity.
Defined.

Example truncate_middle_long_path :
  truncate_middle long_path default_max_length
  = str "services/billing/internal/ha...2/adapters/stripe_webhook.go ".
Proof. vm_compute. reflexivity. Qed.

(** * The resolver in closed form *)

Lemma item_nth (l : list pystr) i :
  0 <= i < len l -> item l i = Ok (nth (Z.to_nat i) l []).
Proof.
  intros Hi. unfold item. rewrite getitem_nonneg by lia.
  destruct (nth_error l (Z.to_nat i)) as [x|] eqn:Hnth.
  - rewrite (nth_error_nth _ _ _ Hnth). reflexivity.
  - apply nth_error_None in Hnth. unfold len in *. lia.
Qed.

Lemma slice_to_firstn {A} (l : list A) k :
  0 <= k <= len l -> slice_to l k = firstn (Z.to_nat k) l.
Proof.
  intros Hk. cbv beta zeta delta [slice_to clamp].
  rewrite (proj2 (Z.ltb_ge k 0)) by lia. f_equal. lia.
Qed.

Lemma index_absent (x : pystr) (l : list pystr) :
  mem x l = false -> index x l = None.
Proof.
  unfold mem. induction l as [|y l IH]; simpl; [reflexivity|].
  intros Hm. apply orb_false_iff in Hm. destruct Hm as [Hxy Hl].
  destruct (str_eqb_spec y x) as [->|_].
  - rewrite str_eqb_refl in Hxy. discriminate.
  - rewrite (IH Hl). reflexivity.
Qed.

Lemma firstn_one (l : list pystr) :
  1 <= len l -> firstn 1 l = [nth 0 l []].
Proof.
  destruct l as [|x l]; [unfold len; simpl; lia|reflexivity].
Qed.

Lemma firstn_four (l : list pystr) :
  4 <= len l -> firstn 4 l = [nth 0 l []; nth 1 l []; nth 2 l []; nth 3 l []].
Proof.
  destruct l as [|a [|b [|c [|d l]]]]; unfold len; simpl; try lia.
  reflexivity.
Qed.

Section ClosedForm.

Variable urlparse : pystr -> ParseResult.t.
Variable lower : pystr -> pystr.

(** [extract_pr_info] computes [resolution_of]: its own indexing and
    unpacking never fail. *)
Lemma extract_pr_info_closed_form url :
  extract_pr_info urlparse lower url
  = resolution_of (host_of urlparse lower url) (parts_of urlparse url).
Proof.
  unfold extract_pr_info, resolution_of, host_of, parts_of.
  set (ps := path_parts_of (urlparse url)).
  pose proof (len_nonneg ps) as Hps.
  destruct (contains (str "github.com") _).
  - destruct (Z.ltb_spec (len ps) 4) as [|Hlen]; [reflexivity|].
    cbv [orb]. unfold second_to_last_is, item.
    destruct (getitem ps (-2)) as [seg|] eqn:Hget.
    + cbv [bind]. destruct (str_eqb seg (str "pull")); [|reflexivity].
      cbv [negb]. rewrite slice_to_firstn by lia.
      change (Z.to_nat 4) with 4%nat. rewrite (firstn_four _ Hlen).
      reflexivity.
    + exfalso. revert Hget. cbv beta zeta delta [getitem].
      change (-2 <? 0) with true. cbv iota.
      destruct (Z.ltb_spec (len ps + -2) 0); [lia|].
      intros Hnth. apply nth_error_None in Hnth. unfold len in *. lia.
  - destruct (contains (str "gitlab.com") _); [|reflexivity].
    destruct (mem (str "merge_requests") ps) eqn:Hmem.
    + destruct (mem_index _ _ Hmem) as (i & Hidx & Hi).
      rewrite Hidx. cbv [negb]. rewrite Z.geb_leb.
      destruct (Z.ltb_spec i 2) as [|Hlo]; [reflexivity|].
      destruct (Z.leb_spec (len ps) (i + 1)) as [|Hhi]; [reflexivity|].
      cbv [orb]. rewrite (item_nth ps (i := i - 2)) by lia.
      rewrite (item_nth ps (i := i + 1)) by lia. cbv [bind].
      replace (Z.to_nat (i - 2)) with (Z.to_nat i - 2)%nat by lia.
      replace (Z.to_nat (i + 1)) with (Z.to_nat i + 1)%nat by lia.
      rewrite Z.geb_leb, Z.gtb_ltb.
      destruct (Z.leb_spec 0 (i - 3)) as [Hthree|Hthree].
      * rewrite (item_nth ps (i := i - 3)) by lia.
        destruct (Z.ltb_spec 0 (i - 3)) as [Hdeep|Hflat].
        -- rewrite slice_to_firstn by lia.
           replace (Z.to_nat (i - 2)) with (Z.to_nat i - 2)%nat by lia.
           reflexivity.
        -- replace (i - 3) with 0 by lia.
           replace (Z.to_nat i - 2)%nat with 1%nat by lia.
           rewrite firstn_one by lia. reflexivity.
      * destruct (Z.ltb_spec 0 (i - 3)); [lia|].
        replace (Z.to_nat i - 2)%nat with 0%nat by lia. reflexivity.
    + rewrite (index_absent _ _ Hmem). reflexivity.
Qed.

End ClosedForm.

Lemma lstrip_repeat c n (s : pystr) : lstrip c (repeat c n ++ s) = lstrip c s.
Proof.
  induction n as [|n IH]; simpl; [reflexivity|].
  rewrite N.eqb_refl. exact IH.
Qed.

Lemma lstrip_app c (s x : pystr) :
  lstrip c s <> [] -> lstrip c (s ++ x) = lstrip c s ++ x.
Proof.
  induction s as [|d s IH]; simpl; [congruence|].
  destruct (N.eqb d c); [exact IH|reflexivity].
Qed.

Lemma lstrip_all c n (s : pystr) :
  lstrip c s = [] -> lstrip c (s ++ repeat c n) = [].
Proof.
  induction s as [|d s IH]; simpl.
  - intros _. rewrite <- (app_nil_r (repeat c n)). rewrite lstrip_repeat.
    reflexivity.
  - destruct (N.eqb d c); [exact IH|discriminate].
Qed.

Lemma rev_repeat {A} (x : A) n : rev (repeat x n) = repeat x n.
Proof.
  induction n as [|n IH]; simpl; [reflexivity|].
  rewrite IH. symmetry. apply repeat_cons.
Qed.

Lemma rstrip_repeat c n (s : pystr) : rstrip c (s ++ repeat c n) = rstrip c s.
Proof.
  unfold rstrip. rewrite rev_app_distr, rev_repeat, lstrip_repeat.
  reflexivity.
Qed.

(** Slashes around a path do not reach the segments. *)
Lemma strip_surrounded c a b (s : pystr) :
  strip c (repeat c a ++ s ++ repeat c b) = strip c s.
Proof.
  unfold strip. rewrite lstrip_repeat.
  destruct (lstrip c s) as [|d t] eqn:Hs.
  - rewrite lstrip_all by exact Hs. reflexivity.
  - rewrite lstrip_app by congruence. rewrite Hs. apply rstrip_repeat.
Qed.

Lemma last_app_right {A} (l1 l2 : list A) d :
  l2 <> [] -> last (l1 ++ l2) d = last l2 d.
Proof.
  intros Hne. induction l1 as [|x l1 IH]; [reflexivity|].
  simpl app. destruct (l1 ++ l2) eqn:Heq; [|exact IH].
  apply app_eq_nil in Heq. destruct Heq. contradiction.
Qed.

Section ResolverBehaviour.

Variable urlparse : pystr -> ParseResult.t.
Variable lower : pystr -> pystr.

Local Notation "'host' url" := (host_of urlparse lower url) (at level 10).
Local Notation "'parts' url" := (parts_of urlparse url) (at level 10).
Local Notation "'resolve' url" := (extract_pr_info urlparse lower url)
  (at level 10).


(** X2: the resolver answers "Unsupported URL" exactly when the lowercased
    host contains neither [github.com] nor [gitlab.com]. *)
Theorem unsupported_iff_host_unknown url :
  resolve url = Err unsupported_url
  <-> contains (str "github.com") (host url) = false
      /\ contains (str "gitlab.com") (host url) = false.
Proof.
  rewrite extract_pr_info_closed_form. unfold resolution_of.
  destruct (contains (str "github.com") _).
  - split; [|intros [? _]; discriminate].
    destruct (_ || _); discriminate.
  - destruct (contains (str "gitlab.com") _).
    + split; [|intros [_ ?]; discriminate].
      destruct (index _ _) as [i|]; [|discriminate].
      destruct (_ || _); discriminate.
    + split; auto.
Qed.

(** X3: the platform of a resolved reference follows the host, GitHub
    first: it is [github] exactly when the host contains [github.com], and
    [gitlab] only on a host that contains [gitlab.com] and not
    [github.com]. *)
Theorem platform_follows_host url plat owner repo number :
  resolve url = Ok (plat, owner, repo, number) ->
  (plat = github <-> contains (str "github.com") (host url) = true)
  /\ (plat = gitlab ->
      contains (str "github.com") (host url) = false
      /\ contains (str "gitlab.com") (host url) = true).
Proof.
  rewrite extract_pr_info_closed_form. unfold resolution_of.
  destruct (contains (str "github.com") _).
  - destruct (_ || _); [discriminate|]. intros [= <- _ _ _].
    split; [tauto|discriminate].
  - destruct (contains (str "gitlab.com") _); [|discriminate].
    destruct (index _ _) as [i|]; [|discriminate].
    destruct (_ || _); [discriminate|]. intros [= <- _ _ _].
    split; [split; discriminate|auto].
Qed.

(** X4: on a GitHub host the resolver succeeds exactly on a path of at
    least four segments whose second-to-last segment is [pull], and it
    then returns the first, second and fourth segments, whatever the
    third segment and the segments after the fourth are. *)
Theorem github_success_iff url r :
  contains (str "github.com") (host url) = true ->
  resolve url = Ok r
  <-> 4 <= len (parts url)
      /\ getitem (parts url) (-2) = Some (str "pull")
      /\ r = (github, nth 0 (parts url) [], nth 1 (parts url) [],
              nth 3 (parts url) []).
Proof.
  intros Hhost. rewrite extract_pr_info_closed_form. unfold resolution_of.
  rewrite Hhost. unfold second_to_last_is.
  destruct (Z.ltb_spec (len (parts url)) 4) as [Hlt|Hge]; cbv [orb].
  - split; [discriminate|]. intros (Hlen & _). lia.
  - destruct (getitem (parts url) (-2)) as [seg|].
    + destruct (str_eqb_spec seg (str "pull")) as [->|Hseg]; cbv [negb].
      * split; [intros [= <-]; auto|]. intros (_ & _ & ->). reflexivity.
      * split; [discriminate|]. intros (_ & [= Heq] & _). congruence.
    + cbv [negb]. split; [discriminate|]. intros (_ & Heq & _). discriminate.
Qed.

(** X5: on a GitLab host that is not taken for GitHub the resolver
    succeeds exactly when the first [merge_requests] segment has at least
    two segments before it and one after it; the number is the segment
    after it, the repo the segment two places before it, and the owner the
    segments before the repo joined by [/].  The segment just before
    [merge_requests] is never looked at. *)
Theorem gitlab_success_iff url r :
  contains (str "github.com") (host url) = false ->
  contains (str "gitlab.com") (host url) = true ->
  resolve url = Ok r
  <-> exists i : Z,
      index (str "merge_requests") (parts url) = Some i
      /\ 2 <= i /\ i + 1 < len (parts url)
      /\ r = (gitlab,
              join (str "/") (firstn (Z.to_nat i - 2) (parts url)),
              nth (Z.to_nat i - 2) (parts url) [],
              nth (Z.to_nat i + 1) (parts url) []).
Proof.
  intros Hgithub Hgitlab. rewrite extract_pr_info_closed_form.
  unfold resolution_of. rewrite Hgithub, Hgitlab.
  destruct (index (str "merge_requests") (parts url)) as [i|].
  - destruct (Z.ltb_spec i 2) as [Hlo|Hlo]; cbv [orb].
    + split; [discriminate|]. intros (j & [= <-] & Hj & _). lia.
    + destruct (Z.leb_spec (len (parts url)) (i + 1)) as [Hhi|Hhi].
      * split; [discriminate|]. intros (j & [= <-] & _ & Hj & _). lia.
      * split.
        -- intros [= <-]. exists i. auto.
        -- intros (j & [= <-] & _ & _ & ->). reflexivity.
  - split; [discriminate|]. intros (j & Hj & _). discriminate.
Qed.

(** X6: a GitLab path [/g1/.../gk/project/-/merge_requests/n] with any
    number [k >= 1] of groups resolves to the owner [g1/.../gk], provided
    no group and not the project is itself called [merge_requests]. *)
Theorem gitlab_nested_groups_of_path url groups project n :
  contains (str "github.com") (host url) = false ->
  contains (str "gitlab.com") (host url) = true ->
  hd [] groups <> [] -> n <> [] ->
  Forall (free_of (chr "/")) (groups ++ [project; n]) ->
  Forall (fun g => g <> str "merge_requests") (groups ++ [project]) ->
  ParseResult.path (urlparse url)
  = chr "/" :: join [chr "/"]
                 (groups ++ [project; str "-"; str "merge_requests"; n]) ->
  resolve url = Ok (gitlab, join (str "/") groups, project, n).
Proof.
  intros Hgithub Hgitlab Hhd Hn Hfree Hnames Hpath.
  assert (Hgroups : groups <> []) by (destruct groups; simpl in Hhd; congruence).
  apply Forall_app in Hfree. destruct Hfree as [Hfree_groups Hfree_rest].
  apply Forall_app in Hnames. destruct Hnames as [Hnames_groups Hnames_rest].
  apply gitlab_resolution_nested with (dash := str "-"); auto.
  - apply (Forall_inv Hnames_rest).
  - discriminate.
  - unfold parts_of. destruct (urlparse url) as [netloc path].
    cbn [ParseResult.path] in Hpath. subst path.
    apply path_parts_of_joined.
    + destruct groups; discriminate.
    + apply Forall_app. split; [exact Hfree_groups|].
      inversion Hfree_rest as [|? ? Hp Hrest]; subst.
      inversion Hrest as [|? ? Hnum _]; subst.
      repeat constructor; try assumption;
        vm_compute; intuition discriminate.
    + destruct groups; [congruence|exact Hhd].
    + rewrite last_app_right by discriminate. exact Hn.
Qed.

(** X7: slashes in front of and behind the path change nothing: two URLs
    with the same host whose paths differ only by such slashes resolve
    alike. *)
Theorem resolution_ignores_outer_slashes url1 url2 a b :
  ParseResult.netloc (urlparse url2) = ParseResult.netloc (urlparse url1) ->
  ParseResult.path (urlparse url2)
  = repeat (chr "/") a ++ ParseResult.path (urlparse url1)
    ++ repeat (chr "/") b ->
  resolve url2 = resolve url1.
Proof.
  intros Hnet Hpath. rewrite !extract_pr_info_closed_form.
  unfold host_of, parts_of, path_parts_of.
  rewrite Hnet, Hpath, strip_surrounded. reflexivity.
Qed.

End ResolverBehaviour.


Lemma platform_follows_host_witness :
  let urlparse := parsed_as "gitlab.com" "/gnome/gimp/-/merge_requests/7" in
  let url := str "https://gitlab.com/gnome/gimp/-/merge_requests/7" in
  (gitlab = github
   <-> contains (str "github.com") (host_of urlparse lower_ascii url) = true)
  /\ (gitlab = gitlab ->
      contains (str "github.com") (host_of urlparse lower_ascii url) = false
      /\ contains (str "gitlab.com") (host_of urlparse lower_ascii url) = true).
Proof.
  apply (@platform_follows_host
           (parsed_as "gitlab.com" "/gnome/gimp/-/merge_requests/7")
           lower_ascii
           (str "https://gitlab.com/gnome/gimp/-/merge_requests/7")
           gitlab (str "gnome") (str "gimp") (str "7")).
  vm_compute. reflexivity.
Defined.

Lemma github_success_iff_witness :
  let urlparse := parsed_as "github.com" "/a/b/c/pull/1" in
  let url := str "https://github.com/a/b/c/pull/1" in
  extract_pr_info urlparse lower_ascii url
  = Ok (github, str "a", str "b", str "pull")
  <-> 4 <= len (parts_of urlparse url)
      /\ getitem (parts_of urlparse url) (-2) = Some (str "pull")
      /\ (github, str "a", str "b", str "pull")
         = (github, nth 0 (parts_of urlparse url) [],
            nth 1 (parts_of urlparse url) [],
            nth 3 (parts_of urlparse url) []).
Proof.
  apply (@github_success_iff (parsed_as "github.com" "/a/b/c/pull/1")
           lower_ascii (str "https://github.com/a/b/c/pull/1")
           (github, str "a", str "b", str "pull")).
  vm_compute. reflexivity.
Defined.

Lemma gitlab_success_iff_witness :
  let urlparse := parsed_as "gitlab.com" "/app/-/merge_requests/7" in
  let url := str "https://gitlab.com/app/-/merge_requests/7" in
  extract_pr_info urlparse lower_ascii url = Ok (gitlab, [], str "app", str "7")
  <-> exists i : Z,
      index (str "merge_requests") (parts_of urlparse url) = Some i
      /\ 2 <= i /\ i + 1 < len (parts_of urlparse url)
      /\ (gitlab, [], str "app", str "7")
         = (gitlab,
            join (str "/") (firstn (Z.to_nat i - 2) (parts_of urlparse url)),
            nth (Z.to_nat i - 2) (parts_of urlparse url) [],
            nth (Z.to_nat i + 1) (parts_of urlparse url) []).
Proof.
  apply (@gitlab_success_iff (parsed_as "gitlab.com" "/app/-/merge_requests/7")
           lower_ascii (str "https://gitlab.com/app/-/merge_requests/7")
           (gitlab, [], str "app", str "7")).
  - vm_compute. reflexivity.
  - vm_compute. reflexivity.
Defined.

Lemma gitlab_nested_groups_of_path_witness :
  extract_pr_info
    (parsed_as "gitlab.com" "/gnome/world/apps/gimp/-/merge_requests/7")
    lower_ascii
    (str "https://gitlab.com/gnome/world/apps/gimp/-/merge_requests/7")
  = Ok (gitlab, str "gnome/world/apps", str "gimp", str "7").
Proof.
  apply (@gitlab_nested_groups_of_path
           (parsed_as "gitlab.com" "/gnome/world/apps/gimp/-/merge_requests/7")
           lower_ascii
           (str "https://gitlab.com/gnome/world/apps/gimp/-/merge_requests/7")
           [str "gnome"; str "world"; str "apps"] (str "gimp") (str "7")).
  - vm_compute. reflexivity.
  - vm_compute. reflexivity.
  - vm_compute. discriminate.
  - vm_compute. discriminate.
  - repeat constructor; vm_compute; intuition discriminate.
  - repeat constructor; vm_compute; discriminate.
  - vm_compute. reflexivity.
Defined.

Lemma resolution_ignores_outer_slashes_witness :
  let urlparse :=
    parsed_by
      [("https://github.com/octocat/hello-world/pull/42",
        ("github.com", "/octocat/hello-world/pull/42"));
       ("https://github.com//octocat/hello-world/pull/42/",
        ("github.com", "//octocat/hello-world/pull/42/"))]%string in
  extract_pr_info urlparse lower_ascii
    (str "https://github.com//octocat/hello-world/pull/42/")
  = extract_pr_info urlparse lower_ascii
      (str "https://github.com/octocat/hello-world/pull/42").
Proof.
  apply (@resolution_ignores_outer_slashes
           (parsed_by
              [("https://github.com/octocat/hello-world/pull/42",
                ("github.com", "/octocat/hello-world/pull/42"));
               ("https://github.com//octocat/hello-world/pull/42/",
                ("github.com", "//octocat/hello-world/pull/42/"))]%string)
           lower_ascii
           (str "https://github.com/octocat/hello-world/pull/42")
           (str "https://github.com//octocat/hello-world/pull/42/")
           1%nat 1%nat).
  - vm_compute. reflexivity.
  - vm_compute. reflexivity.
Defined.

(** * Classification by extension *)

Lemma startswith_prefix (p : pystr) : forall s : pystr,
  startswith s p = true <-> exists rest, s = p ++ rest.
Proof.
  induction p as [|c p IH]; intros s; simpl.
  - split; [intros _; exists s; reflexivity|reflexivity].
  - destruct s as [|d s].
    + split; [discriminate|intros (rest & Heq); discriminate].
    + rewrite andb_true_iff, IH, N.eqb_eq. split.
      * intros (-> & rest & ->). exists rest. reflexivity.
      * intros (rest & [= -> ->]). split; [reflexivity|]. exists rest.
        reflexivity.
Qed.

Lemma endswith_suffix (s p : pystr) :
  endswith s p = true <-> exists pre, s = pre ++ p.
Proof.
  unfold endswith. rewrite startswith_prefix. split.
  - intros (rest & Heq). exists (rev rest).
    rewrite <- (rev_involutive s), Heq, rev_app_distr, rev_involutive.
    reflexivity.
  - intros (pre & ->). exists (rev pre). apply rev_app_distr.
Qed.

(** X8: a path is a config file exactly when it ends, letter case
    included, with one of the nine extensions; what stands before the
    extension, if anything, does not matter. *)
Theorem is_config_file_iff (path : pystr) :
  is_config_file path = true
  <-> exists pre ext, In ext CONFIG_EXTENSIONS /\ path = pre ++ ext.
Proof.
  unfold is_config_file. rewrite existsb_exists. split.
  - intros (ext & Hin & Hends). apply endswith_suffix in Hends.
    destruct Hends as (pre & ->). exists pre, ext. auto.
  - intros (pre & ext & Hin & ->). exists ext. split; [exact Hin|].
    apply endswith_suffix. exists pre. reflexivity.
Qed.

(** * More on the GitLab normalisation *)

Lemma count_nonneg {A} (f : A -> bool) (l : list A) : 0 <= count f l.
Proof. unfold count. apply len_nonneg. Qed.

Lemma counts_within_lines (lines : list pystr) :
  count is_addition lines + count is_deletion lines <= len lines.
Proof.
  induction lines as [|line lines IH]; [unfold count, len; simpl; lia|].
  rewrite !count_cons, len_cons.
  destruct (is_addition line) eqn:Ha.
  - rewrite (addition_not_deletion _ Ha). lia.
  - destruct (is_deletion line); lia.
Qed.

Lemma normalize_change_counts (f : GitLabChange.t) :
  let diff := match GitLabChange.diff f with Some d => d | None => [] end in
  normalize_change f
  = ChangedFile.mk (GitLabChange.new_path f)
      (count is_addition (splitlines diff))
      (count is_deletion (splitlines diff))
      (count is_addition (splitlines diff)
       + count is_deletion (splitlines diff)).
Proof.
  cbv zeta. unfold normalize_change. rewrite count_diff_spec. reflexivity.
Qed.

Lemma normalize_change_well_formed (f : GitLabChange.t) :
  well_formed (normalize_change f).
Proof.
  rewrite normalize_change_counts. unfold well_formed, consistent.
  cbn [ChangedFile.additions ChangedFile.deletions ChangedFile.changes].
  split; [reflexivity|]. split; apply count_nonneg.
Qed.

Lemma fetch_mr_files_gitlab_Ok response files :
  fetch_mr_files_gitlab response = Ok files ->
  files = map normalize_change
            (match Response.changes response with Some l => l | None => [] end).
Proof.
  unfold fetch_mr_files_gitlab.
  destruct (negb (Response.status_code response =? 200)); [discriminate|].
  rewrite append_loop. intros [= <-]. reflexivity.
Qed.

Lemma gitlab_files_well_formed_aux response files :
  fetch_mr_files_gitlab response = Ok files -> Forall well_formed files.
Proof.
  intros Hok. apply fetch_mr_files_gitlab_Ok in Hok. subst files.
  apply Forall_forall. intros file Hin. apply in_map_iff in Hin.
  destruct Hin as (f & <- & _). apply normalize_change_well_formed.
Qed.

(** X9: the files the GitLab fetch returns are one per entry of
    [changes], in the same order and under the entry's [new_path] (none
    when the key is missing), and each satisfies
    [changes = additions + deletions] with no negative count. *)
Theorem gitlab_files_well_formed response files :
  fetch_mr_files_gitlab response = Ok files ->
  map ChangedFile.filename files
  = map GitLabChange.new_path
      (match Response.changes response with Some l => l | None => [] end)
  /\ Forall well_formed files.
Proof.
  intros Hok. apply fetch_mr_files_gitlab_Ok in Hok. subst files.
  split.
  - rewrite map_map. apply map_ext. intros f.
    rewrite normalize_change_counts. reflexivity.
  - apply Forall_forall. intros file Hin. apply in_map_iff in Hin.
    destruct Hin as (f & <- & _). apply normalize_change_well_formed.
Qed.

(** X10: a file never gets more changes than its diff has lines, so a
    change without a [diff] key, or with an empty diff, counts for
    nothing. *)
Theorem gitlab_changes_within_lines (f : GitLabChange.t) :
  let diff := match GitLabChange.diff f with Some d => d | None => [] end in
  0 <= ChangedFile.changes (normalize_change f) <= len (splitlines diff)
  /\ (diff = [] ->
      normalize_change f = ChangedFile.mk (GitLabChange.new_path f) 0 0 0).
Proof.
  cbv zeta. rewrite normalize_change_counts.
  cbn [ChangedFile.changes]. split.
  - pose proof (counts_within_lines
                  (splitlines match GitLabChange.diff f with
                              | Some d => d | None => [] end)).
    pose proof (count_nonneg is_addition
                  (splitlines match GitLabChange.diff f with
                              | Some d => d | None => [] end)).
    pose proof (count_nonneg is_deletion
                  (splitlines match GitLabChange.diff f with
                              | Some d => d | None => [] end)).
    lia.
  - intros ->. reflexivity.
Qed.

Lemma splitlines_from_line (l : pystr) : forall cur rest : pystr,
  one_line l ->
  splitlines_from cur (l ++ rest) = splitlines_from (rev l ++ cur) rest.
Proof.
  induction l as [|c l IH]; intros cur rest Hl; [reflexivity|].
  inversion Hl as [|? ? Hc Hrest]; subst. simpl app at 1.
  cbn [splitlines_from]. rewrite Hc, IH by exact Hrest.
  simpl rev. rewrite <- app_assoc. reflexivity.
Qed.

Lemma splitlines_from_newline (cur rest : pystr) :
  splitlines_from cur (10%N :: rest) = rev cur :: splitlines_from [] rest.
Proof.
  cbn [splitlines_from]. change (is_linebreak 10%N) with true. cbv iota.
  destruct rest as [|d rest]; reflexivity.
Qed.

(** Lines put together with newlines are found again by [splitlines]. *)
Lemma splitlines_join (lines : list pystr) :
  Forall one_line lines -> last lines [0%N] <> [] ->
  splitlines (join newline lines) = lines.
Proof.
  unfold splitlines. induction lines as [|l [|l2 lines] IH]; intros Hall Hlast.
  - reflexivity.
  - simpl in *. rewrite <- (app_nil_r l) at 1.
    rewrite splitlines_from_line by (inversion Hall; assumption).
    rewrite app_nil_r. cbn [splitlines_from].
    destruct (rev l) as [|d t] eqn:Hrev.
    + apply (f_equal (@rev char)) in Hrev. rewrite rev_involutive in Hrev.
      simpl in Hrev. congruence.
    + rewrite <- Hrev, rev_involutive. reflexivity.
  - inversion Hall as [|? ? Hl Hrest]; subst.
    change (join newline (l :: l2 :: lines))
      with (l ++ 10%N :: join newline (l2 :: lines)).
    rewrite splitlines_from_line by exact Hl.
    rewrite splitlines_from_newline, app_nil_r, rev_involutive.
    rewrite IH; [reflexivity|exact Hrest|exact Hlast].
Qed.

(** X11: for a diff made of lines joined by newlines, the last one not
    empty, the counts are those of the lines themselves: the additions
    are the lines opening with [+] but not [+++], the deletions those
    opening with [-] but not [---], and every other line, among them the
    context lines and the two file headers, counts for nothing. *)
Theorem count_diff_of_lines (lines : list pystr) :
  Forall one_line lines -> last lines [0%N] <> [] ->
  count_diff (join newline lines)
  = (count is_addition lines, count is_deletion lines).
Proof.
  intros Hall Hlast. rewrite count_diff_spec, splitlines_join by assumption.
  reflexivity.
Qed.

Lemma count_diff_of_lines_witness :
  count_diff
    (join newline [str "+++ b/f"; str "+foo"; str "--- a/f"; str "-bar";
                   str " ctx"; str "+baz"])
  = (2, 1).
Proof.
  apply (@count_diff_of_lines
           [str "+++ b/f"; str "+foo"; str "--- a/f"; str "-bar"; str " ctx";
            str "+baz"]).
  - repeat constructor.
  - vm_compute. discriminate.
Defined.

Lemma gitlab_files_well_formed_witness :
  map ChangedFile.filename
    [ChangedFile.mk (str "src/main.go") 2 1 3;
     ChangedFile.mk (str "README.md") 0 0 0]
  = map GitLabChange.new_path
      (match Response.changes gitlab_response with
       | Some l => l | None => [] end)
  /\ Forall well_formed
       [ChangedFile.mk (str "src/main.go") 2 1 3;
        ChangedFile.mk (str "README.md") 0 0 0].
Proof.
  apply (@gitlab_files_well_formed gitlab_response). vm_compute. reflexivity.
Defined.

(** * More on the aggregator *)

Lemma sum_of_app {A} (f : A -> Z) (l1 l2 : list A) :
  sum_of f (l1 ++ l2) = sum_of f l1 + sum_of f l2.
Proof.
  induction l1 as [|x l1 IH]; [reflexivity|].
  simpl app. rewrite !sum_of_cons, IH. lia.
Qed.

Lemma sum_of_nonneg {A} (f : A -> Z) (l : list A) :
  Forall (fun x => 0 <= f x) l -> 0 <= sum_of f l.
Proof.
  induction 1 as [|x l Hx _ IH]; [reflexivity|].
  rewrite sum_of_cons. lia.
Qed.

Lemma sum_of_subseq {A} (f : A -> Z) (l1 l2 : list A) :
  subseq l1 l2 -> Forall (fun x => 0 <= f x) l2 -> sum_of f l1 <= sum_of f l2.
Proof.
  induction 1 as [|x l1 l2 _ IH|x l1 l2 _ IH]; intros Hall.
  - reflexivity.
  - inversion Hall; subst. rewrite sum_of_cons.
    specialize (IH ltac:(assumption)). lia.
  - inversion Hall; subst. rewrite !sum_of_cons.
    specialize (IH ltac:(assumption)). lia.
Qed.

Lemma kept_without_tests_subseq (files : list ChangedFile.t) :
  subseq (filter (kept false) files) (filter (kept true) files).
Proof.
  induction files as [|f files IH]; simpl; [constructor|].
  destruct (kept false f); constructor; exact IH.
Qed.

(** X12: summarising a concatenation is summarising its parts and
    putting the results together, so the summary of a paginated listing
    is the sum of the summaries of its pages. *)
Theorem summarize_files_app (l1 l2 : list ChangedFile.t) include_tests :
  summarize_files (l1 ++ l2) include_tests
  = combine (summarize_files l1 include_tests)
      (summarize_files l2 include_tests).
Proof.
  rewrite !summarize_files_spec. unfold combine.
  cbv [total_added total_deleted total_changes file_changes fst snd].
  rewrite filter_app, map_app, !sum_of_app. reflexivity.
Qed.

(** X13: every record of the retained list carries
    [net_change = additions - deletions] and the config flag of its own
    path, no retained path is a test file unless tests were asked for, and
    the net changes add up to the total added minus the total deleted. *)
Theorem retained_records_derived files include_tests :
  let s := summarize_files files include_tests in
  Forall (fun fc =>
            FileChange.net_change fc
            = FileChange.additions fc - FileChange.deletions fc
            /\ FileChange.is_config fc = is_config_file (FileChange.path fc)
            /\ (include_tests = false ->
                is_test_file (FileChange.path fc) = false))
    (file_changes s)
  /\ sum_of FileChange.net_change (file_changes s)
     = total_added s - total_deleted s.
Proof.
  cbv zeta. rewrite summarize_files_spec.
  cbv [total_added total_deleted total_changes file_changes fst snd].
  split.
  - apply Forall_forall. intros fc Hin. apply in_map_iff in Hin.
    destruct Hin as (f & <- & Hf). apply filter_In in Hf.
    destruct Hf as [_ Hkept]. repeat split. intros ->.
    unfold kept in Hkept. simpl in Hkept. apply negb_true_iff in Hkept.
    exact Hkept.
  - induction (filter (kept include_tests) files) as [|f l IH];
      [reflexivity|].
    simpl map. rewrite !sum_of_cons, IH. simpl FileChange.net_change. lia.
Qed.

(** X14: leaving the tests out only removes records: the list without
    tests is a subsequence of the list with them and, over files with no
    negative count, no total grows. *)
Theorem excluding_tests_keeps_less (files : list ChangedFile.t) :
  Forall well_formed files ->
  let without := summarize_files files false in
  let all := summarize_files files true in
  subseq (file_changes without) (file_changes all)
  /\ total_added without <= total_added all
  /\ total_deleted without <= total_deleted all
  /\ total_changes without <= total_changes all.
Proof.
  intros Hall. cbv zeta. rewrite !summarize_files_spec.
  cbv [total_added total_deleted total_changes file_changes fst snd].
  pose proof (kept_without_tests_subseq files) as Hsub.
  assert (Hwf : Forall well_formed (filter (kept true) files))
    by apply Forall_filter, Hall.
  split; [apply subseq_map, Hsub|].
  repeat split; apply sum_of_subseq; try exact Hsub;
    (eapply Forall_impl; [|exact Hwf]);
    unfold well_formed, consistent; intros f (Hc & Ha & Hd); lia.
Qed.

Lemma excluding_tests_keeps_less_witness :
  subseq (file_changes (summarize_files scenario_files false))
    (file_changes (summarize_files scenario_files true))
  /\ total_added (summarize_files scenario_files false)
     <= total_added (summarize_files scenario_files true)
  /\ total_deleted (summarize_files scenario_files false)
     <= total_deleted (summarize_files scenario_files true)
  /\ total_changes (summarize_files scenario_files false)
     <= total_changes (summarize_files scenario_files true).
Proof.
  apply (excluding_tests_keeps_less (files := scenario_files)).
  repeat (apply Forall_cons || apply Forall_nil);
    unfold well_formed, consistent; simpl; lia.
Defined.

(** X15: whatever a successful GitLab response holds, the summary of its
    files is additive, [total_changes = total_added + total_deleted], and
    no total is negative; the invariant the aggregator relies on is
    established by the normalisation. *)
Theorem gitlab_summary_additive response files include_tests :
  fetch_mr_files_gitlab response = Ok files ->
  let s := summarize_files files include_tests in
  total_changes s = total_added s + total_deleted s
  /\ 0 <= total_added s /\ 0 <= total_deleted s.
Proof.
  intros Hok. apply gitlab_files_well_formed_aux in Hok.
  cbv zeta. rewrite summarize_files_spec.
  cbv [total_added total_deleted total_changes file_changes fst snd].
  assert (Hwf : Forall well_formed (filter (kept include_tests) files))
    by apply Forall_filter, Hok.
  split; [|split].
  - apply sum_of_consistent. eapply Forall_impl; [|exact Hwf].
    intros f (Hc & _). exact Hc.
  - apply sum_of_nonneg. eapply Forall_impl; [|exact Hwf].
    intros f (_ & Ha & _). exact Ha.
  - apply sum_of_nonneg. eapply Forall_impl; [|exact Hwf].
    intros f (_ & _ & Hd). exact Hd.
Qed.

Lemma gitlab_summary_additive_witness :
  let files := [ChangedFile.mk (str "src/main.go") 2 1 3;
                ChangedFile.mk (str "README.md") 0 0 0] in
  total_changes (summarize_files files false)
  = total_added (summarize_files files false)
    + total_deleted (summarize_files files false)
  /\ 0 <= total_added (summarize_files files false)
  /\ 0 <= total_deleted (summarize_files files false).
Proof.
  apply (@gitlab_summary_additive gitlab_response). vm_compute. reflexivity.
Defined.

(** * More on the presenter *)

Lemma clamp_value {A} (l : list A) k :
  Z.of_nat (clamp l k)
  = Z.min (Z.max (if k <? 0 then len l + k else k) 0) (len l).
Proof.
  pose proof (len_nonneg l). cbv beta zeta delta [clamp]. lia.
Qed.

Lemma len_slice_to {A} (l : list A) k :
  len (slice_to l k) = Z.of_nat (clamp l k).
Proof.
  unfold slice_to, len at 1. rewrite length_firstn.
  pose proof (clamp_value l k). unfold len in *. lia.
Qed.

Lemma len_slice_from {A} (l : list A) k :
  len (slice_from l k) = len l - Z.of_nat (clamp l k).
Proof.
  unfold slice_from, len at 1. rewrite length_skipn.
  pose proof (clamp_value l k). unfold len in *. lia.
Qed.

(** The length of what [truncate_middle] builds for a long path, before
    it is padded. *)
Lemma len_truncated (path : pystr) m :
  let part_len := (m - 3) / 2 in
  len (slice_to path part_len ++ str "..." ++ slice_from path (- part_len))
  = Z.of_nat (clamp path part_len) + 3
    + (len path - Z.of_nat (clamp path (- part_len))).
Proof.
  cbv zeta. rewrite !len_app, len_slice_to, len_slice_from.
  change (len (str "...")) with 3. lia.
Qed.

(** X16: [truncate_middle] returns exactly [max_length] characters when
    the path fits or [max_length] is at least 5, and only then: below 5 a
    path that does not fit comes back longer than [max_length]. *)
Theorem truncate_middle_width_iff (path : pystr) m :
  len (truncate_middle path m) = m <-> len path <= m \/ 5 <= m.
Proof.
  pose proof (len_nonneg path) as Hnn. unfold truncate_middle.
  destruct (Z.leb_spec (len path) m) as [Hfit|Hlong].
  - rewrite ljust_len. split; [auto|lia].
  - rewrite ljust_len, len_truncated.
    pose proof (Z.div_mod (m - 3) 2 ltac:(lia)) as Hdiv.
    pose proof (Z.mod_pos_bound (m - 3) 2 ltac:(lia)) as Hmod.
    rewrite !clamp_value. set (pl := (m - 3) / 2) in *.
    destruct (Z.ltb_spec pl 0); destruct (Z.ltb_spec (- pl) 0); lia.
Qed.

(** X17: with [max_length] 3 or 4 there is no room for the two ends and
    a path that does not fit comes back whole behind the ellipsis. *)
Theorem truncate_middle_no_room (path : pystr) m :
  m = 3 \/ m = 4 -> m < len path ->
  truncate_middle path m = str "..." ++ path.
Proof.
  intros Hm Hlong. unfold truncate_middle.
  destruct (Z.leb_spec (len path) m); [lia|].
  assert (Hpl : (m - 3) / 2 = 0) by (destruct Hm as [-> | ->]; reflexivity).
  rewrite Hpl. change (- 0) with 0. pose proof (len_nonneg path).
  rewrite slice_to_firstn by lia. unfold slice_from.
  replace (clamp path 0) with 0%nat
    by (apply Nat2Z.inj; rewrite clamp_value; simpl; lia).
  change (firstn (Z.to_nat 0) path ++ str "..." ++ skipn 0 path)
    with (str "..." ++ path).
  apply ljust_full. rewrite len_app. change (len (str "...")) with 3. lia.
Qed.

Lemma truncate_middle_no_room_witness :
  truncate_middle (str "src/main.go") 4 = str "...src/main.go".
Proof.
  apply (@truncate_middle_no_room (str "src/main.go") 4).
  - right. reflexivity.
  - vm_compute. reflexivity.
Defined.

(** X18: for [max_length] at least 5, a path that does not fit becomes
    its first [(max_length - 3) // 2] characters, the ellipsis, its last
    [(max_length - 3) // 2] characters, and one space when
    [max_length - 3] is odd. *)
Theorem truncate_middle_keeps_ends (path : pystr) m :
  5 <= m -> m < len path ->
  let part_len := Z.to_nat ((m - 3) / 2) in
  truncate_middle path m
  = firstn part_len path ++ str "..." ++ skipn (length path - part_len) path
    ++ repeat (chr " ") (Z.to_nat ((m - 3) mod 2))
  /\ length (firstn part_len path) = part_len
  /\ length (skipn (length path - part_len) path) = part_len.
Proof.
  intros Hm Hlong. cbv zeta. unfold truncate_middle.
  destruct (Z.leb_spec (len path) m); [lia|].
  pose proof (Z.div_mod (m - 3) 2 ltac:(lia)) as Hdiv.
  pose proof (Z.mod_pos_bound (m - 3) 2 ltac:(lia)) as Hmod.
  set (pl := (m - 3) / 2) in *.
  assert (Hto : slice_to path pl = firstn (Z.to_nat pl) path).
  { apply slice_to_firstn. lia. }
  assert (Hfrom : slice_from path (- pl)
                  = skipn (length path - Z.to_nat pl) path).
  { unfold slice_from. f_equal. apply Nat2Z.inj. rewrite clamp_value.
    destruct (Z.ltb_spec (- pl) 0); unfold len in *; lia. }
  assert (Hfirst : length (firstn (Z.to_nat pl) path) = Z.to_nat pl).
  { rewrite length_firstn. unfold len in *. lia. }
  assert (Hlast : length (skipn (length path - Z.to_nat pl) path)
                  = Z.to_nat pl).
  { rewrite length_skipn. unfold len in *. lia. }
  rewrite Hto, Hfrom. split; [|split; assumption].
  unfold ljust. rewrite <- !app_assoc. do 3 f_equal. f_equal.
  rewrite !len_app. unfold len. rewrite Hfirst, Hlast.
  change (length (str "...")) with 3%nat. lia.
Qed.

Lemma truncate_middle_keeps_ends_witness :
  truncate_middle long_path 12
  = firstn 4 long_path ++ str "..." ++ skipn (length long_path - 4) long_path
    ++ repeat (chr " ") 1
  /\ length (firstn 4 long_path) = 4%nat
  /\ length (skipn (length long_path - 4) long_path) = 4%nat.
Proof.
  apply (@truncate_middle_keeps_ends long_path 12).
  - lia.
  - vm_compute. reflexivity.
Defined.

(** X19: truncating twice is truncating once, whenever the first result
    has the width asked for. *)
Theorem truncate_middle_idempotent (path : pystr) m :
  len path <= m \/ 5 <= m ->
  truncate_middle (truncate_middle path m) m = truncate_middle path m.
Proof.
  intros Hm.
  assert (Hwidth : len (truncate_middle path m) = m).
  { pose proof (len_nonneg path) as Hnn. unfold truncate_middle.
    destruct (Z.leb_spec (len path) m) as [Hfit|Hlong].
    - rewrite ljust_len. lia.
    - rewrite ljust_len, len_truncated.
      pose proof (Z.div_mod (m - 3) 2 ltac:(lia)) as Hdiv.
      pose proof (Z.mod_pos_bound (m - 3) 2 ltac:(lia)) as Hmod.
      rewrite !clamp_value. set (pl := (m - 3) / 2) in *.
      destruct (Z.ltb_spec pl 0); destruct (Z.ltb_spec (- pl) 0); lia. }
  unfold truncate_middle at 1. rewrite Hwidth, Z.leb_refl.
  apply ljust_full. lia.
Qed.

Lemma truncate_middle_idempotent_witness :
  truncate_middle (truncate_middle long_path 60) 60
  = truncate_middle long_path 60.
Proof.
  apply (@truncate_middle_idempotent long_path 60). right. lia.
Defined.

(** X20: the path column is 60 characters wide in both modes; without
    truncation a path of at most 60 characters is shown as with it, and
    of a longer one only the last 60 characters are shown. *)
Theorem path_field_width (path : pystr) truncate_paths :
  len (path_field truncate_paths path) = 60
  /\ (len path <= 60 -> path_field false path = path_field true path)
  /\ (60 < len path ->
      path_field false path = skipn (length path - 60) path).
Proof.
  pose proof (len_nonneg path) as Hnn.
  assert (Hplain : len path <= 60 ->
                   path_field false path
                   = path ++ repeat (chr " ") (Z.to_nat (60 - len path))).
  { intros Hfit. unfold path_field, slice_from.
    replace (clamp path (-60)) with 0%nat; [reflexivity|].
    apply Nat2Z.inj. rewrite clamp_value. change (-60 <? 0) with true. lia. }
  assert (Hclip : 60 < len path ->
                  path_field false path = skipn (length path - 60) path).
  { intros Hlong. unfold path_field, slice_from.
    replace (clamp path (-60)) with (length path - 60)%nat.
    - apply ljust_full. unfold len in *. rewrite length_skipn. lia.
    - apply Nat2Z.inj. rewrite clamp_value. change (-60 <? 0) with true.
      unfold len in *. lia. }
  assert (Htrunc : len (truncate_middle path default_max_length) = 60).
  { destruct (Z.le_gt_cases (len path) 60) as [Hfit|Hlong].
    - rewrite (truncate_middle_short _ Hfit), len_app, len_repeat. lia.
    - rewrite (truncate_middle_long _ Hlong), !len_app. unfold len in *.
      rewrite length_firstn, length_skipn. simpl length. lia. }
  split; [|split].
  - destruct truncate_paths.
    + unfold path_field. rewrite ljust_len. lia.
    + destruct (Z.le_gt_cases (len path) 60) as [Hfit|Hlong].
      * rewrite (Hplain Hfit), len_app, len_repeat. lia.
      * rewrite (Hclip Hlong). unfold len in *. rewrite length_skipn. lia.
  - intros Hfit. rewrite (Hplain Hfit). unfold path_field.
    rewrite ljust_full by lia. symmetry.
    apply truncate_middle_short, Hfit.
  - exact Hclip.
Qed.

(** * GitHub pagination *)

Section PaginationFacts.

Variable requests_get : pystr -> headers -> Z -> Z -> GitHubResponse.t.
Variable url : pystr.
Variable hdrs : headers.

(** [k] full pages take [k] rounds of the loop and are appended in order. *)
Lemma fetch_pr_files_loop_full k : forall fuel page all_files,
  (forall i, (i < k)%nat -> full_page (listing requests_get url hdrs (page + Z.of_nat i))) ->
  fetch_pr_files_loop requests_get url hdrs (k + fuel) page all_files
  = fetch_pr_files_loop requests_get url hdrs fuel (page + Z.of_nat k)
      (all_files ++ pages_from (listing requests_get url hdrs) page k).
Proof.
  induction k as [|k IH]; intros fuel page all_files Hfull.
  - unfold pages_from. simpl. rewrite Z.add_0_r, app_nil_r. reflexivity.
  - destruct (Hfull 0%nat ltac:(lia)) as [Hstatus Hjson].
    rewrite Z.add_0_r in Hstatus, Hjson. unfold listing in Hstatus, Hjson.
    change (S k + fuel)%nat with (S (k + fuel)). cbn [fetch_pr_files_loop].
    rewrite Hstatus. cbn [Z.eqb Pos.eqb negb].
    destruct (GitHubResponse.json (requests_get url hdrs page 100))
      as [|f files] eqn:Hpage; [congruence|].
    rewrite IH.
    + f_equal; [lia|]. rewrite <- app_assoc. f_equal.
      unfold pages_from. cbn [seq map concat].
      replace (listing requests_get url hdrs (page + Z.of_nat 0)) with (requests_get url hdrs page 100)
        by (unfold listing; f_equal; lia).
      rewrite Hpage. f_equal.
      rewrite <- seq_shift, map_map. f_equal. apply map_ext. intros i.
      do 2 f_equal. lia.
    + intros i Hi. replace (page + 1 + Z.of_nat i)
        with (page + Z.of_nat (S i)) by lia.
      apply Hfull. lia.
Qed.

Lemma fetch_pr_files_loop_stable fuel : forall fuel' page all_files r,
  fetch_pr_files_loop requests_get url hdrs fuel page all_files = Some r ->
  (fuel <= fuel')%nat ->
  fetch_pr_files_loop requests_get url hdrs fuel' page all_files = Some r.
Proof.
  induction fuel as [|fuel IH]; intros fuel' page acc r Hres Hle;
    [discriminate|].
  destruct fuel' as [|fuel']; [lia|]. cbn [fetch_pr_files_loop] in *.
  destruct (negb _); [exact Hres|].
  destruct (GitHubResponse.json _); [exact Hres|].
  apply IH; [exact Hres|lia].
Qed.

End PaginationFacts.

Section PaginationBehaviour.

Variable requests_get : pystr -> headers -> Z -> Z -> GitHubResponse.t.
Variables owner repo pr_number token : pystr.

Local Notation "'page' i" :=
  (listing requests_get (github_files_url owner repo pr_number)
     (github_headers token) i) (at level 10).

(** X22: when the first [k] pages come back with status 200 and files,
    and page [k + 1] with status 200 and no file, [fetch_pr_files] stops
    after [k + 1] requests and returns the files of the [k] pages in page
    order. *)
Theorem fetch_pr_files_all_pages k fuel :
  (forall i, (i < k)%nat -> full_page (page (1 + Z.of_nat i))) ->
  GitHubResponse.status_code (page (1 + Z.of_nat k)) = 200 ->
  GitHubResponse.json (page (1 + Z.of_nat k)) = [] ->
  (k < fuel)%nat ->
  fetch_pr_files requests_get fuel owner repo pr_number token
  = Some (Ok (pages_from
                (listing requests_get (github_files_url owner repo pr_number)
                   (github_headers token)) 1 k)).
Proof.
  intros Hfull Hstatus Hjson Hfuel. unfold fetch_pr_files.
  replace fuel with (k + S (fuel - S k))%nat by lia.
  rewrite fetch_pr_files_loop_full by exact Hfull.
  cbn [fetch_pr_files_loop]. unfold listing in Hstatus, Hjson.
  rewrite Hstatus, Hjson. reflexivity.
Qed.

(** X23: when a page answers with a status other than 200 after [k]
    pages of files, [fetch_pr_files] raises the [RuntimeError] of that
    page's status and body, and the files read so far are lost. *)
Theorem fetch_pr_files_api_error k fuel :
  (forall i, (i < k)%nat -> full_page (page (1 + Z.of_nat i))) ->
  GitHubResponse.status_code (page (1 + Z.of_nat k)) <> 200 ->
  (k < fuel)%nat ->
  fetch_pr_files requests_get fuel owner repo pr_number token
  = Some (Err (RuntimeError
                 (GitHubResponse.status_code (page (1 + Z.of_nat k)))
                 (GitHubResponse.text (page (1 + Z.of_nat k))))).
Proof.
  intros Hfull Hstatus Hfuel. unfold fetch_pr_files.
  replace fuel with (k + S (fuel - S k))%nat by lia.
  rewrite fetch_pr_files_loop_full by exact Hfull.
  cbn [fetch_pr_files_loop]. unfold listing in *.
  destruct (Z.eqb_spec
              (GitHubResponse.status_code
                 (requests_get (github_files_url owner repo pr_number)
                    (github_headers token) (1 + Z.of_nat k) 100)) 200);
    [contradiction|reflexivity].
Qed.

(** X24: the loop has no bound of its own: against a server that
    answers every page with status 200 and at least one file,
    [fetch_pr_files] never returns, however many rounds it is given. *)
Theorem fetch_pr_files_endless fuel :
  (forall i : nat, full_page (page (1 + Z.of_nat i))) ->
  fetch_pr_files requests_get fuel owner repo pr_number token = None.
Proof.
  intros Hfull. unfold fetch_pr_files.
  replace fuel with (fuel + 0)%nat by lia.
  rewrite fetch_pr_files_loop_full by (intros i _; apply Hfull).
  reflexivity.
Qed.

(** The allowance only bounds the embedding: once [fetch_pr_files]
    returns, it returns the same with any larger allowance. *)
Lemma fetch_pr_files_stable fuel fuel' r :
  fetch_pr_files requests_get fuel owner repo pr_number token = Some r ->
  (fuel <= fuel')%nat ->
  fetch_pr_files requests_get fuel' owner repo pr_number token = Some r.
Proof.
  unfold fetch_pr_files. intros Hres Hle.
  eapply fetch_pr_files_loop_stable; eassumption.
Qed.

End PaginationBehaviour.

Lemma fetch_pr_files_all_pages_witness :
  fetch_pr_files two_pages 5 (str "o") (str "r") (str "1") (str "t")
  = Some (Ok (scenario_files ++ [ChangedFile.mk (str "README.md") 3 0 3])).
Proof.
  apply (@fetch_pr_files_all_pages two_pages (str "o") (str "r") (str "1")
           (str "t") 2 5).
  - intros [|[|i]] Hi; [split; [reflexivity|discriminate]
                       |split; [reflexivity|discriminate]|lia].
  - reflexivity.
  - reflexivity.
  - lia.
Defined.

Lemma fetch_pr_files_api_error_witness :
  fetch_pr_files broken_listing 5 (str "o") (str "r") (str "1") (str "t")
  = Some (Err (RuntimeError 502 (str "Bad Gateway"))).
Proof.
  apply (@fetch_pr_files_api_error broken_listing (str "o") (str "r")
           (str "1") (str "t") 1 5).
  - intros [|i] Hi; [split; [reflexivity|discriminate]|lia].
  - discriminate.
  - lia.
Defined.

Lemma fetch_pr_files_endless_witness :
  fetch_pr_files endless_listing 1000 (str "o") (str "r") (str "1") (str "t")
  = None.
Proof.
  apply (@fetch_pr_files_endless endless_listing (str "o") (str "r")
           (str "1") (str "t") 1000).
  intros i. split; [reflexivity|discriminate].
Defined.

(** * The command line *)

Example repr_examples :
  map repr [0; 7; -12; 1000] = map str ["0"; "7"; "-12"; "1000"]%string.
Proof. vm_compute. reflexivity. Qed.

Example table_header_text :
  table_header
  = str "File" ++ repeat (chr " ") 59 ++ str "+Add   -Del  "
    ++ 916%N :: str "Change   " ++ 177%N :: str "Net  Config?".
Proof. vm_compute. reflexivity. Qed.

Lemma len_rjust (s : pystr) width : len (rjust s width) = Z.max (len s) width.
Proof.
  unfold rjust. rewrite len_app, len_repeat.
  pose proof (len_nonneg s). lia.
Qed.

Lemma len_path_field (path : pystr) truncate_paths :
  len (path_field truncate_paths path) = 60.
Proof.
  pose proof (len_nonneg path) as Hnn. unfold path_field.
  destruct truncate_paths; rewrite ljust_len.
  - destruct (Z.le_gt_cases (len path) 60) as [Hfit|Hlong].
    + rewrite (truncate_middle_short _ Hfit), len_app, len_repeat. lia.
    + rewrite (truncate_middle_long _ Hlong), !len_app. unfold len in *.
      rewrite length_firstn, length_skipn. simpl length. lia.
  - rewrite len_slice_from, clamp_value. change (-60 <? 0) with true. lia.
Qed.

Section MainFacts.

Variable urlparse : pystr -> ParseResult.t.
Variable lower : pystr -> pystr.
Variable getenv : pystr -> option pystr.
Variable quote : pystr -> pystr.
Variable requests_get : pystr -> headers -> Z -> Z -> GitHubResponse.t.
Variable gitlab_get : pystr -> headers -> Response.t.

Local Notation "'run' fuel args" :=
  (main urlparse lower getenv quote requests_get gitlab_get fuel args)
  (at level 10, fuel at level 9, args at level 9).


(** X26: when the URL resolves and neither [--token] nor the
    environment variable of its platform holds a non-empty token, [main]
    prints the platform's "token is required" line and stops without any
    request; the other platform's variable is not consulted. *)
Theorem main_needs_token fuel args plat owner repo number :
  extract_pr_info urlparse lower (Args.pr_url args)
  = Ok (plat, owner, repo, number) ->
  truthy (Args.token args) = false ->
  truthy (getenv (token_variable plat)) = false ->
  run fuel args = Some [token_required plat].
Proof.
  intros Hres Harg Henv. unfold main, py_or. rewrite Hres, Harg.
  destruct plat; simpl in Henv; rewrite Henv; reflexivity.
Qed.

(** X27: on a GitLab URL with a token, [main] makes one request, to the
    "changes" endpoint of the project with the token in the
    [PRIVATE-TOKEN] header, and prints the report of the normalised files
    when the status is 200, and otherwise the single line
    [Error: GitLab API error: <status> <body>]. *)
Theorem main_on_gitlab fuel args owner repo number :
  extract_pr_info urlparse lower (Args.pr_url args)
  = Ok (gitlab, owner, repo, number) ->
  let token := py_or (Args.token args) (getenv (str "GITLAB_TOKEN")) in
  truthy token = true ->
  let response :=
    gitlab_get
      (str "https://gitlab.com/api/v4/projects/"
       ++ quote (owner ++ str "/" ++ repo) ++ str "/merge_requests/"
       ++ number ++ str "/changes")
      [(str "PRIVATE-TOKEN", text_of token);
       (str "Accept", str "application/json")] in
  run fuel args
  = Some (if Response.status_code response =? 200
          then report args
                 (map normalize_change
                    (match Response.changes response with
                     | Some l => l | None => [] end))
          else [str "Error: GitLab API error: "
                ++ repr (Response.status_code response) ++ str " "
                ++ Response.text response]).
Proof.
  intros Hres token Htoken response. unfold main. rewrite Hres.
  fold token. rewrite Htoken. cbn [negb].
  change (gitlab_get (gitlab_changes_url quote owner repo number)
            (gitlab_headers (text_of token))) with response.
  unfold fetch_mr_files_gitlab.
  destruct (Response.status_code response =? 200); cbn [negb].
  - rewrite append_loop. reflexivity.
  - reflexivity.
Qed.

(** X28: on a GitHub URL with a token, when [k] pages of files are
    followed by a page that ends the loop, [main] prints the report of the
    files of the [k] pages, in page order, when that page has status 200
    and is empty, and the single line
    [Error: GitHub API error: <status> <body>] when its status is not 200,
    in which case nothing of the pages already read is printed. *)
Theorem main_on_github k fuel args owner repo number :
  extract_pr_info urlparse lower (Args.pr_url args)
  = Ok (github, owner, repo, number) ->
  let token := py_or (Args.token args) (getenv (str "GITHUB_TOKEN")) in
  truthy token = true ->
  let page :=
    listing requests_get (github_files_url owner repo number)
      (github_headers (text_of token)) in
  (forall i, (i < k)%nat -> full_page (page (1 + Z.of_nat i))) ->
  ~ full_page (page (1 + Z.of_nat k)) ->
  (k < fuel)%nat ->
  run fuel args
  = Some (if GitHubResponse.status_code (page (1 + Z.of_nat k)) =? 200
          then report args (pages_from page 1 k)
          else [str "Error: GitHub API error: "
                ++ repr (GitHubResponse.status_code (page (1 + Z.of_nat k)))
                ++ str " " ++ GitHubResponse.text (page (1 + Z.of_nat k))]).
Proof.
  intros Hres token Htoken page Hfull Hlast Hfuel. unfold main.
  rewrite Hres. fold token. rewrite Htoken. cbn [negb].
  unfold fetch_pr_files.
  replace fuel with (k + S (fuel - S k))%nat by lia.
  rewrite fetch_pr_files_loop_full by exact Hfull.
  cbn [fetch_pr_files_loop]. subst page. unfold listing in *.
  set (last_page := requests_get (github_files_url owner repo number)
                      (github_headers (text_of token)) (1 + Z.of_nat k) 100)
    in *.
  destruct (Z.eqb_spec (GitHubResponse.status_code last_page) 200)
    as [Hok|Hbad]; cbn [negb].
  - destruct (GitHubResponse.json last_page) eqn:Hjson.
    + reflexivity.
    + exfalso. apply Hlast. split; [exact Hok|]. rewrite Hjson. discriminate.
  - reflexivity.
Qed.

End MainFacts.

(** X29: a non-empty [--token] is the token of both platforms and the
    environment is not read: with such a token [main] behaves the same
    in any two environments. *)
Theorem main_token_overrides_env urlparse lower getenv1 getenv2 quote
  requests_get gitlab_get fuel args :
  truthy (Args.token args) = true ->
  main urlparse lower getenv1 quote requests_get gitlab_get fuel args
  = main urlparse lower getenv2 quote requests_get gitlab_get fuel args.
Proof.
  intros Htoken. unfold main, py_or. rewrite Htoken. reflexivity.
Qed.

(** X30: the layout of the table: the report has four strings, and with
    [--show-files] seven and one per retained file; the header is 99
    characters wide and the rule under it 100; a row is never narrower
    than the header, and exactly as wide when each number fits its
    column. *)
Theorem table_layout args files truncate_paths f :
  length (report args files)
  = (if Args.show_files args
     then 7 + length (file_changes
                        (summarize_files files (Args.include_tests args)))
     else 4)%nat
  /\ len table_header = 99 /\ len table_rule = 100
  /\ 99 <= len (table_row truncate_paths f)
  /\ (len (repr (FileChange.additions f)) <= 6 ->
      len (repr (FileChange.deletions f)) <= 6 ->
      len (repr (FileChange.changes f)) <= 8 ->
      len (repr (FileChange.net_change f)) <= 6 ->
      len (table_row truncate_paths f) = 99).
Proof.
  split; [|split; [reflexivity|split; [reflexivity|]]].
  - unfold report.
    destruct (summarize_files files (Args.include_tests args))
      as [[[added deleted] changed] rows] eqn:Hsum.
    rewrite length_app. cbv [file_changes snd].
    destruct (Args.show_files args); [|reflexivity].
    rewrite length_app, length_map. reflexivity.
  - assert (Hrow : len (table_row truncate_paths f)
                   = 65 + Z.max (len (repr (FileChange.additions f))) 6
                     + Z.max (len (repr (FileChange.deletions f))) 6
                     + Z.max (len (repr (FileChange.changes f))) 8
                     + Z.max (len (repr (FileChange.net_change f))) 6 + 8).
    { unfold table_row. rewrite !len_app, !len_rjust, len_path_field.
      change (len (str " ")) with 1.
      destruct (FileChange.is_config f);
        [change (len (str "Yes")) with 3|change (len (str "No")) with 2];
        lia. }
    rewrite Hrow. split; lia.
Qed.


Lemma main_needs_token_witness :
  main (parsed_as "github.com" "/o/r/pull/1") lower_ascii
    (fun name => if str_eqb name (str "GITLAB_TOKEN")
                 then Some (str "gl-env") else None)
    quote_plain two_pages gitlab_answers 5
    (args_of "https://github.com/o/r/pull/1" (Some []))
  = Some [github_token_required].
Proof.
  apply (@main_needs_token
           (parsed_as "github.com" "/o/r/pull/1") lower_ascii
           (fun name => if str_eqb name (str "GITLAB_TOKEN")
                        then Some (str "gl-env") else None)
           quote_plain two_pages gitlab_answers 5
           (args_of "https://github.com/o/r/pull/1" (Some []))
           github (str "o") (str "r") (str "1")).
  - vm_compute. reflexivity.
  - reflexivity.
  - reflexivity.
Defined.

Lemma main_on_gitlab_witness :
  main (parsed_as "gitlab.com" "/g/p/-/merge_requests/7") lower_ascii
    env_with_tokens quote_plain two_pages gitlab_refuses 0
    (args_of "https://gitlab.com/g/p/-/merge_requests/7" None)
  = Some [str "Error: GitLab API error: 401 Unauthorized"].
Proof.
  apply (@main_on_gitlab
           (parsed_as "gitlab.com" "/g/p/-/merge_requests/7") lower_ascii
           env_with_tokens quote_plain two_pages gitlab_refuses 0
           (args_of "https://gitlab.com/g/p/-/merge_requests/7" None)
           (str "g") (str "p") (str "7")).
  - vm_compute. reflexivity.
  - vm_compute. reflexivity.
Defined.

Lemma main_on_github_witness :
  main (parsed_as "github.com" "/o/r/pull/1") lower_ascii
    env_with_tokens quote_plain broken_listing gitlab_answers 5
    (args_of "https://github.com/o/r/pull/1" None)
  = Some [str "Error: GitHub API error: 502 Bad Gateway"].
Proof.
  apply (@main_on_github
           (parsed_as "github.com" "/o/r/pull/1") lower_ascii
           env_with_tokens quote_plain broken_listing gitlab_answers 1 5
           (args_of "https://github.com/o/r/pull/1" None)
           (str "o") (str "r") (str "1")).
  - vm_compute. reflexivity.
  - vm_compute. reflexivity.
  - intros [|i] Hi; [split; [reflexivity|discriminate]|lia].
  - intros [Hstatus _]. vm_compute in Hstatus. discriminate.
  - lia.
Defined.

Lemma main_token_overrides_env_witness :
  main (parsed_as "github.com" "/o/r/pull/1") lower_ascii
    env_with_tokens quote_plain two_pages gitlab_answers 5
    (args_of "https://github.com/o/r/pull/1" (Some (str "cli")))
  = main (parsed_as "github.com" "/o/r/pull/1") lower_ascii
      env_without_tokens quote_plain two_pages gitlab_answers 5
      (args_of "https://github.com/o/r/pull/1" (Some (str "cli"))).
Proof.
  apply (@main_token_overrides_env
           (parsed_as "github.com" "/o/r/pull/1") lower_ascii
           env_with_tokens env_without_tokens quote_plain two_pages
           gitlab_answers 5
           (args_of "https://github.com/o/r/pull/1" (Some (str "cli")))).
  reflexivity.
Defined.

(** A whole run: two pages of files from GitHub, tests left out. *)
Example main_run_github :
  main (parsed_as "github.com" "/o/r/pull/1") lower_ascii
    env_with_tokens quote_plain two_pages gitlab_answers 5
    (args_of "https://github.com/o/r/pull/1" None)
  = Some
      [ newline ++ str "Code Delta Summary (excluding test files):";
        str "Lines added:     13";
        str "Lines deleted:   2";
        str "Total changes:   15";
        newline ++ str "File Changes (non-test files):";
        table_header;
        table_rule;
        str "src/main.go" ++ repeat (chr " ") 49
        ++ str "     10      2       12      8       No";
        str "README.md" ++ repeat (chr " ") 51
        ++ str "      3      0        3      3       No" ].
Proof. vm_compute. reflexivity. Qed.
